(** * MLx text loader: a shallow embedding of [src/DataProviders/TextLoader.cpp]

    The development follows the source file top to bottom: the example
    parsers ([ExampleParser], [DenseParser], [SparseParser]), the streaming
    cursor ([TextLoader::State]) and the loader constructor
    ([TextLoader::TextLoader]).

    Conventions.
    - C++ [int] and [size_t] values are integers in [Z]; every implicit
      conversion between the two is written out with [to_size_t] (LP64,
      64-bit [size_t]) and [to_int] (32-bit [int]).
    - A call either returns, throws, or runs into undefined behaviour (an
      access outside a [std::vector]): this is the type [outcome].
    - Library routines that are not part of the translated file (the string
      helpers [Split] and [Trim], [std::stof], [strtol], [strtof], the float
      type itself) are the fields of the class [Platform].
    - The C variable [errno], which the sparse parser reads and never
      clears, is an argument of the functions that depend on it: its value
      when the call starts.
    - The settings of the loader, which the source keeps in local variables
      with fixed initial values, are the record [Settings]. *)

From Stdlib Require Import ZArith List String Ascii Lia Sorted SpecFloat.
From stdpp Require Import base tactics option list strings gmap.

Local Open Scope Z_scope.

(** ** Outcomes of a call *)

Inductive exn : Set :=
  | ArgumentException   (* CheckArg(...) *)
  | domain_error        (* Check<domain_error>(...) *)
  | FormatException     (* Check<FormatException>(...), Fail<FormatException>(...) *)
  | stof_error          (* std::invalid_argument / std::out_of_range of std::stof *)
  | map_out_of_range    (* std::out_of_range of unordered_map::at *)
  | length_error        (* std::vector of a negative size or capacity *)
  | assertion_failure.  (* assert(...) *)

Inductive outcome (A : Type) : Type :=
  | Ok (a : A)
  | Threw (e : exn)
  | Undefined.          (* access outside the bounds of a vector *)

Arguments Ok {A} a.
Arguments Threw {A} e.
Arguments Undefined {A}.

#[global] Instance exn_eq_dec : EqDecision exn.
Proof. solve_decision. Defined.

#[global] Instance outcome_ret : MRet outcome := fun _ a => Ok a.
#[global] Instance outcome_bind : MBind outcome := fun _ _ f m =>
  match m with
  | Ok a => f a
  | Threw e => Threw e
  | Undefined => Undefined
  end.

(** [Check<E>(cond, msg)] and [CheckArg(cond, msg)]. *)
Definition Check (e : exn) (cond : bool) : outcome unit :=
  if cond then Ok tt else Threw e.

Definition is_Ok {A} (o : outcome A) : Prop := ∃ a, o = Ok a.
Definition fails {A} (o : outcome A) : Prop := ∃ e, o = Threw e.

(** ** Integer conversions *)

Definition to_size_t (z : Z) : Z := z mod 2 ^ 64.
Definition to_int (z : Z) : Z := (z + 2 ^ 31) mod 2 ^ 32 - 2 ^ 31.
Definition int_range (z : Z) : Prop := - 2 ^ 31 ≤ z < 2 ^ 31.
Definition size_of {A} (v : list A) : Z := Z.of_nat (length v).
Definition ERANGE : Z := 34.

Arguments to_size_t : simpl never.
Arguments to_int : simpl never.

(** ** Vectors

    [v[i]] on a [std::vector] does not check its index.  The index is
    converted to [size_type], so a negative [int] is out of bounds too. *)

Definition vec_at {A} (v : list A) (i : Z) : outcome A :=
  if decide (0 ≤ i) then
    match v !! Z.to_nat i with
    | Some x => Ok x
    | None => Undefined
    end
  else Undefined.

Definition vec_store {A} (v : list A) (i : Z) (x : A) : outcome (list A) :=
  if decide (0 ≤ i ∧ i < size_of v) then Ok (<[Z.to_nat i := x]> v) else Undefined.

(** [std::vector<T> v(n)] with [n] converted from [int]. *)
Definition vec_new {A} (n : Z) (x : A) : outcome (list A) :=
  if decide (0 ≤ n) then Ok (replicate (Z.to_nat n) x) else Threw length_error.

(** ** Library routines used by the loader *)

Class Platform := {
  float : Type;
  (** conversion of the [int] literals [0] and [1] to [float] *)
  float_of_int : Z → float;
  (** [counter++] on a [float] *)
  float_incr : float → float;
  (** [std::stof]: [None] when it throws *)
  stof : string → option float;
  (** [strtol(s, &rest, 10)]: the [long] read, the number of characters
      consumed ([rest - s]) and whether [errno] was set to [ERANGE] *)
  strtol : string → Z * nat * bool;
  (** [strtof(s, NULL)]: the value and whether [errno] was set *)
  strtof : string → float * bool;
  Split : string → ascii → list string;
  Trim : string → string;
  IsEmptyOrWhiteSpace : string → bool;
  ReadAllLines : string → list string;
}.

Section Parsers.
Context `{PF : Platform}.

Inductive Vector : Type :=
  | DenseVector (features : list float)
  | SparseVector (dimension : Z) (indices : list Z) (values : list float).

Record Example : Type := mkExample {
  ex_features : Vector;
  ex_label : float;
  ex_weight : float;
  ex_name : option string;
}.

Definition stof_or_throw (s : string) : outcome float :=
  match stof s with
  | Some x => Ok x
  | None => Threw stof_error
  end.

(** ** ExampleParser *)

Record ExampleParser : Type := mkExampleParser {
  dimension_ : Z;
  labelCol_ : Z;
  weightCol_ : Z;
  nameCol_ : Z;
  separator_ : ascii;
  labelMap_ : gmap string float;
}.

Definition tab : ascii := ascii_of_nat 9.

(** The loop of the one-column form: [labelMap_[key] = counter++]. *)
Fixpoint label_enum (lines : list string) (counter : float)
    (m : gmap string float) : outcome (gmap string float) :=
  match lines with
  | [] => Ok m
  | key :: rest =>
      _ ← Check FormatException (bool_decide (m !! key = None));
      label_enum rest (float_incr counter) (<[key := counter]> m)
  end.

(** The loop of the two-column form; the [try] block turns a failure of
    [stof] (and of [tokens[1]]) into a [FormatException]. *)
Fixpoint label_pairs (lines : list string) (m : gmap string float)
    : outcome (gmap string float) :=
  match lines with
  | [] => Ok m
  | line :: rest =>
      let tokens := Split line tab in
      _ ← Check FormatException (bool_decide (size_of tokens = 2));
      match tokens with
      | [key; text] =>
          match stof text with
          | Some value => label_pairs rest (<[key := value]> m)
          | None => Threw FormatException
          end
      | _ => Threw FormatException
      end
  end.

Definition load_label_map (labelMapFile : string) : outcome (gmap string float) :=
  if IsEmptyOrWhiteSpace labelMapFile then Ok ∅
  else
    let lines := ReadAllLines labelMapFile in
    _ ← Check FormatException (bool_decide (1 < size_of lines));
    tokens ← (match lines with
              | first :: _ => Ok (Split first tab)
              | [] => Undefined
              end);
    _ ← Check FormatException (bool_decide (size_of tokens ≤ 2));
    if bool_decide (size_of tokens = 1)
    then label_enum lines (float_of_int 0) ∅
    else label_pairs lines ∅.

Definition ExampleParser_ctor (dimension labelCol weightCol nameCol : Z)
    (separator : ascii) (labelMapFile : string) : outcome ExampleParser :=
  m ← load_label_map labelMapFile;
  Ok (mkExampleParser dimension labelCol weightCol nameCol separator m).

(** [labelMap_.at(key)] *)
Definition map_at (m : gmap string float) (key : string) : outcome float :=
  match m !! key with
  | Some x => Ok x
  | None => Threw map_out_of_range
  end.

(** [ExampleParser::Parse]; [ParseFeatures] is the virtual method of the
    parser the call is made on.  Label and weight are read in statements
    of their own.  The order in which the arguments of [new Example(...)]
    are evaluated is not fixed by the language: [ParseFeatures(columns)]
    and the read of [columns[nameCol_]] may come in either order.  The
    read throws nothing, so it is placed first: when it is outside the row
    the call is undefined in both orders, whatever [ParseFeatures] does,
    and when it is inside the row the outcome is that of [ParseFeatures]
    in both orders. *)
Definition Parse (ParseFeatures : list string → outcome Vector)
    (p : ExampleParser) (line : string) : outcome Example :=
  let columns := Split line (separator_ p) in
  label ← (text ← vec_at columns (labelCol_ p);
           if bool_decide (labelMap_ p = ∅) then stof_or_throw text
           else map_at (labelMap_ p) text);
  weight ← (if bool_decide (0 ≤ weightCol_ p)
            then text ← vec_at columns (weightCol_ p); stof_or_throw text
            else Ok (float_of_int 1));
  name ← (if bool_decide (0 ≤ nameCol_ p)
          then text ← vec_at columns (nameCol_ p); Ok (Some text)
          else Ok None);
  features ← ParseFeatures columns;
  Ok (mkExample features label weight name).

(** ** DenseParser *)

Record DenseParser : Type := mkDenseParser {
  dense_base : ExampleParser;
  parseIndices_ : list Z;
}.

(** The constructor's loop: the positions [i] with [!nonFeature[i]],
    starting the count at [i]. *)
Fixpoint feature_positions (nonFeature : list bool) (i : Z) : list Z :=
  match nonFeature with
  | [] => []
  | b :: rest =>
      if b then feature_positions rest (i + 1)
      else i :: feature_positions rest (i + 1)
  end.

(** [parseIndices_.reserve(dimension)] converts the [int] to [size_type]:
    a negative [dimension] is above [max_size()] and the call throws
    [std::length_error]; for any other [int] the call changes no value. *)
Definition DenseParser_ctor (dimension labelCol weightCol nameCol : Z)
    (nonFeature : list bool) (separator : ascii) (labelMapFile : string)
    : outcome DenseParser :=
  base ← ExampleParser_ctor dimension labelCol weightCol nameCol separator labelMapFile;
  _ ← Check length_error (bool_decide (0 ≤ dimension));
  Ok (mkDenseParser base (feature_positions nonFeature 0)).

(** [parseIndices_.back()]: undefined on an empty vector. *)
Definition vec_back {A} (v : list A) : outcome A :=
  match last v with
  | Some x => Ok x
  | None => Undefined
  end.

(** The loop [for (int i = 0; i < dimension_; ++i)], with [n] iterations
    left to run. *)
Fixpoint dense_loop (parseIndices : list Z) (columns : list string)
    (n : nat) (i : Z) (features : list float) : outcome (list float) :=
  match n with
  | O => Ok features
  | S n' =>
      pos ← vec_at parseIndices i;
      text ← vec_at columns pos;
      value ← stof_or_throw text;
      features' ← vec_store features i value;
      dense_loop parseIndices columns n' (i + 1) features'
  end.

Definition DenseParser_ParseFeatures (p : DenseParser) (columns : list string)
    : outcome Vector :=
  back ← vec_back (parseIndices_ p);
  _ ← Check FormatException (bool_decide (to_size_t back < size_of columns));
  let dimension := dimension_ (dense_base p) in
  features ← vec_new dimension (float_of_int 0);
  features' ← dense_loop (parseIndices_ p) columns (Z.to_nat dimension) 0 features;
  Ok (DenseVector features').

(** ** SparseParser *)

Record SparseParser : Type := mkSparseParser {
  sparse_base : ExampleParser;
  featureColumnOffset_ : Z;
}.

Definition SparseParser_ctor (dimension labelCol weightCol nameCol : Z)
    (separator : ascii) (labelMapFile : string) : outcome SparseParser :=
  base ← ExampleParser_ctor dimension labelCol weightCol nameCol separator labelMapFile;
  let featureColumnOffset :=
    1 + (if bool_decide (weightCol < 0) then 0 else 1)
      + (if bool_decide (nameCol < 0) then 0 else 1) in
  _ ← Check ArgumentException
        (bool_decide (to_size_t labelCol < featureColumnOffset)
         && bool_decide (to_size_t weightCol < featureColumnOffset)
         && bool_decide (to_size_t nameCol < featureColumnOffset));
  Ok (mkSparseParser base featureColumnOffset).

(** The character [*rest] after [consumed] characters of [column]; the
    terminating NUL at the end of the string. *)
Definition char_at (column : string) (consumed : nat) : ascii :=
  default Ascii.zero (String.get consumed column).

Definition colon : ascii := ascii_of_nat 58.

(** [rest + 1] *)
Definition after (column : string) (consumed : nat) : string :=
  String.substring (S consumed) (String.length column - S consumed) column.

(** State of the loop [for (size_t i = 0, j = offset; i < count; i++, j++)] *)
Record sparse_state : Type := mkSparseState {
  ss_i : Z;
  ss_j : Z;
  ss_errno : Z;
  ss_lastIndex : Z;
  ss_indices : list Z;
  ss_values : list float;
}.

(** One run of the loop body. *)
Definition sparse_step (dimension : Z) (columns : list string) (s : sparse_state)
    : outcome sparse_state :=
  column ← vec_at columns (ss_j s);
  let '(parsed, consumed, range) := strtol column in
  let index := to_int parsed in
  let errno1 := if (range : bool) then ERANGE else ss_errno s in
  _ ← Check FormatException
        (negb (bool_decide (errno1 ≠ 0) || bool_decide (consumed = O)
               || bool_decide (char_at column consumed ≠ colon)));
  _ ← Check FormatException
        (negb (bool_decide (index ≤ ss_lastIndex s) || bool_decide (dimension ≤ index)));
  let '(value, range') := strtof (after column consumed) in
  let errno2 := if (range' : bool) then ERANGE else errno1 in
  _ ← Check FormatException (negb (bool_decide (errno2 ≠ 0)));
  indices ← vec_store (ss_indices s) (ss_j s) index;
  values ← vec_store (ss_values s) (ss_j s) value;
  Ok (mkSparseState (ss_i s + 1) (ss_j s + 1) errno2 index indices values).

Fixpoint sparse_loop (dimension : Z) (columns : list string) (n : nat)
    (s : sparse_state) : outcome sparse_state :=
  match n with
  | O => Ok s
  | S n' => s' ← sparse_step dimension columns s; sparse_loop dimension columns n' s'
  end.

(** [SparseParser::ParseFeatures]; [errno] is the value of the C variable
    [errno] when the call starts (the function reads it and never clears
    it). *)
Definition SparseParser_ParseFeatures (p : SparseParser) (errno : Z)
    (columns : list string) : outcome Vector :=
  let dimension := dimension_ (sparse_base p) in
  let count := to_size_t (size_of columns - featureColumnOffset_ p) in
  _ ← Check FormatException
        (bool_decide (0 < count) && bool_decide (count ≤ to_size_t dimension));
  let indices := replicate (Z.to_nat count) 0 in
  let values := replicate (Z.to_nat count) (float_of_int 0) in
  let offset := featureColumnOffset_ p in
  s ← sparse_loop dimension columns (Z.to_nat count)
        (mkSparseState 0 offset errno (-1) indices values);
  _ ← Check FormatException (bool_decide (ss_lastIndex s < dimension));
  Ok (SparseVector dimension (ss_indices s) (ss_values s)).

(** The parser a loader owns: [UREF<ExampleParser>] pointing to one of the
    two final classes. *)
Inductive AnyParser : Type :=
  | IsDense (p : DenseParser)
  | IsSparse (p : SparseParser).

Definition parser_base (p : AnyParser) : ExampleParser :=
  match p with
  | IsDense d => dense_base d
  | IsSparse s => sparse_base s
  end.

(** [parser->Parse(line)], with [errno] as in [SparseParser_ParseFeatures]. *)
Definition parser_Parse (errno : Z) (p : AnyParser) (line : string) : outcome Example :=
  match p with
  | IsDense d => Parse (DenseParser_ParseFeatures d) (dense_base d) line
  | IsSparse s => Parse (SparseParser_ParseFeatures s errno) (sparse_base s) line
  end.

End Parsers.

(** ** The file stream

    [std::ifstream] as far as the loader uses it: the bytes of the file, the
    read position and the two state bits that [getline] and [seekg] set and
    test. *)

Record ifstream : Type := mkStream {
  contents : list ascii;
  gpos : nat;
  eofbit : bool;
  failbit : bool;
}.

(** [ifstream f(filename)]: [None] is a file that cannot be opened. *)
Definition open_file (bytes : option (list ascii)) : ifstream :=
  match bytes with
  | Some b => mkStream b 0 false false
  | None => mkStream [] 0 false true
  end.

Definition good (fs : ifstream) : bool := negb (eofbit fs) && negb (failbit fs).

Definition newline : ascii := ascii_of_nat 10.

(** Characters up to the next newline: the line, the number of characters
    extracted (the newline included) and whether the end of the file was
    reached first. *)
Fixpoint scan_line (rest : list ascii) : list ascii * nat * bool :=
  match rest with
  | [] => ([], O, true)
  | c :: rest' =>
      if decide (c = newline) then ([], 1%nat, false)
      else let '(l, n, e) := scan_line rest' in (c :: l, S n, e)
  end.

(** [std::getline(fs, str)]: on a stream that is not [good] the sentry sets
    [failbit] and [str] is left alone; otherwise [eofbit] is set when the
    end of the file is reached and [failbit] when nothing was extracted. *)
Definition getline (fs : ifstream) (str : string) : ifstream * string :=
  if good fs then
    let '(l, n, e) := scan_line (drop (gpos fs) (contents fs)) in
    (mkStream (contents fs) (gpos fs + n) e (bool_decide (n = O)),
     string_of_list_ascii l)
  else (mkStream (contents fs) (gpos fs) (eofbit fs) true, str).

(** [fs.seekg(pos)] (C++11): clears [eofbit], then moves only if the
    stream has not failed; [pos] is a position [tellg] returned. *)
Definition seekg (fs : ifstream) (pos : Z) : ifstream :=
  if failbit fs then mkStream (contents fs) (gpos fs) false true
  else mkStream (contents fs) (Z.to_nat pos) false false.

(** [fs.tellg()] *)
Definition tellg (fs : ifstream) : ifstream * Z :=
  if good fs then (fs, Z.of_nat (gpos fs))
  else (mkStream (contents fs) (gpos fs) (eofbit fs) true, -1).

(** ** TextLoader::State *)

Section Cursor.
Context `{PF : Platform}.

(** The pointer [current_]. *)
Inductive cursor : Type :=
  | Null
  | Heap (e : Example)       (* an example allocated by [Parse] *)
  | Dangling                 (* deleted and not yet replaced *)
  | Cached (i : Z).          (* [&cache_[0] + i] *)

Record State : Type := mkState {
  fstream_ : ifstream;
  dataSeekPosition_ : Z;
  parser_ : AnyParser;
  cache_ : list Example;
  current_ : cursor;
}.

Definition with_stream (st : State) (fs : ifstream) (c : cursor) : State :=
  mkState fs (dataSeekPosition_ st) (parser_ st) (cache_ st) c.

(** The example [current_] points to. *)
Definition current (st : State) : option Example :=
  match current_ st with
  | Heap e => Some e
  | Cached i => if decide (0 ≤ i) then cache_ st !! Z.to_nat i else None
  | Null | Dangling => None
  end.

Definition deleted (c : cursor) : cursor :=
  match c with
  | Null => Null
  | _ => Dangling
  end.

(** [State::Reset]; the [assert] is evaluated. *)
Definition Reset (errno : Z) (st : State) : State * outcome unit :=
  match cache_ st with
  | [] =>
      let fs1 := seekg (fstream_ st) (dataSeekPosition_ st) in
      let '(fs2, line) := getline fs1 EmptyString in
      if failbit fs2 then (with_stream st fs2 (current_ st), Threw assertion_failure)
      else
        match parser_Parse errno (parser_ st) line with
        | Ok e => (with_stream st fs2 (Heap e), Ok tt)
        | Threw x => (with_stream st fs2 (deleted (current_ st)), Threw x)
        | Undefined => (with_stream st fs2 (deleted (current_ st)), Undefined)
        end
  | _ :: _ => (with_stream st (fstream_ st) (Cached 0), Ok tt)
  end.

(** The constructor; [cache_] starts empty and [current_] as the null
    pointer (both belong to the base class). *)
Definition State_ctor (errno : Z) (fstream : ifstream) (dataSeekPosition : Z)
    (parser : AnyParser) : State * outcome unit :=
  Reset errno (mkState fstream dataSeekPosition parser [] Null).

(** [State::MoveNext].  In the cached branch [++current_] is defined only
    for a pointer into the cache that is not yet past its end. *)
Definition MoveNext (errno : Z) (st : State) : State * outcome bool :=
  match cache_ st with
  | [] =>
      let '(fs, line) := getline (fstream_ st) EmptyString in
      if failbit fs then (with_stream st fs (current_ st), Ok false)
      else
        match parser_Parse errno (parser_ st) line with
        | Ok e => (with_stream st fs (Heap e), Ok true)
        | Threw x => (with_stream st fs (current_ st), Threw x)
        | Undefined => (with_stream st fs (current_ st), Undefined)
        end
  | _ :: _ =>
      match current_ st with
      | Cached i =>
          if decide (0 ≤ i ∧ i < size_of (cache_ st))
          then (with_stream st (fstream_ st) (Cached (i + 1)),
                Ok (bool_decide (i + 1 ≤ size_of (cache_ st) - 1)))
          else (st, Undefined)
      | _ => (st, Undefined)
      end
  end.

(** [n] calls of [MoveNext], whatever each of them returns. *)
Fixpoint MoveNext_times (errno : Z) (n : nat) (st : State) : State :=
  match n with
  | O => st
  | S n' => MoveNext_times errno n' (fst (MoveNext errno st))
  end.

(** Modelled from the spec: [StreamingExamples::State::Cache] belongs to the
    base class, which is not part of the translated file.  The spec has it
    "eagerly drain the cursor into the in-memory cache": the current
    example and every example [MoveNext] still yields are appended, in
    order, and the cursor is left where the last [MoveNext] left it.
    [fuel] bounds the number of rows; [drain_rows] below provides one more
    than the number of bytes left in the file. *)
Fixpoint drain (errno : Z) (fuel : nat) (st : State) (acc : list Example)
    : State * outcome (list Example) :=
  match fuel with
  | O => (st, Ok acc)
  | S fuel' =>
      match MoveNext errno st with
      | (st', Ok true) =>
          match current st' with
          | Some e => drain errno fuel' st' (acc ++ [e])
          | None => (st', Undefined)
          end
      | (st', Ok false) => (st', Ok acc)
      | (st', Threw x) => (st', Threw x)
      | (st', Undefined) => (st', Undefined)
      end
  end.

Definition drain_rows (st : State) : nat :=
  S (length (contents (fstream_ st)) - gpos (fstream_ st)).

Definition Cache (errno : Z) (st : State) : State * outcome unit :=
  match current st with
  | None => (st, Undefined)
  | Some e =>
      match drain errno (drain_rows st) st [e] with
      | (st', Ok rows) =>
          (mkState (fstream_ st') (dataSeekPosition_ st') (parser_ st') rows (current_ st'),
           Ok tt)
      | (st', Threw x) => (st', Threw x)
      | (st', Undefined) => (st', Undefined)
      end
  end.

End Cursor.

(** ** TextLoader::TextLoader *)

Section Loader.
Context `{PF : Platform}.

(** The settings the constructor declares as local variables. *)
Record Settings : Type := mkSettings {
  separator : ascii;
  labelCol : Z;
  weightCol : Z;
  nameCol : Z;
  labelMapFile : string;
  cache : bool;
}.

(** The values the source assigns to them ("ToDo: handle settings"). *)
Definition default_settings : Settings :=
  mkSettings tab (-1) (-1) (-1) EmptyString true.

Definition starts_with (s prefix : string) : bool :=
  bool_decide (String.substring 0 (String.length prefix) s = prefix).

(** The loop that looks for the header line.  Every round either extracts
    a character or leaves the stream not [good], so [fuel] rounds with
    [fuel] above the number of bytes are enough. *)
Fixpoint read_header (fuel : nat) (fs : ifstream) (header : string)
    : ifstream * string :=
  match fuel with
  | O => (fs, header)
  | S fuel' =>
      if good fs && (bool_decide (String.length header = O) || starts_with header "//")
      then let '(fs', h) := getline fs header in read_header fuel' fs' (Trim h)
      else (fs, header)
  end.

Definition header_rounds (fs : ifstream) : nat :=
  S (S (length (contents fs) - gpos fs)).

(** Lines 118 to 134: the explicitly designated columns. *)
Definition mark_columns (cfg : Settings) (numCols : Z) : outcome (list bool) :=
  let isNonFeature := replicate (Z.to_nat numCols) false in
  isNonFeature ←
    (if bool_decide (labelCol cfg ≠ -1) then
       _ ← Check domain_error
             (bool_decide (0 ≤ labelCol cfg) && bool_decide (to_size_t (labelCol cfg) < numCols));
       vec_store isNonFeature (labelCol cfg) true
     else Ok isNonFeature);
  isNonFeature ←
    (if bool_decide (nameCol cfg ≠ -1) then
       _ ← Check domain_error
             (bool_decide (0 ≤ nameCol cfg) && bool_decide (to_size_t (nameCol cfg) < numCols));
       vec_store isNonFeature (nameCol cfg) true
     else Ok isNonFeature);
  if bool_decide (weightCol cfg ≠ -1) then
    _ ← Check domain_error
          (bool_decide (0 ≤ weightCol cfg) && bool_decide (to_size_t (weightCol cfg) < numCols));
    vec_store isNonFeature (nameCol cfg) true
  else Ok isNonFeature.

(** Lines 136 to 147: the walk over the header columns, [cols] being the
    columns from position [i] on. *)
Fixpoint infer_columns (cols : list string) (i : Z) (labelCol : Z)
    (isNonFeature : list bool) (featureNames : list string)
    : outcome (Z * list bool * list string) :=
  match cols with
  | [] => Ok (labelCol, isNonFeature, featureNames)
  | name :: rest =>
      marked ← vec_at isNonFeature i;
      if (marked : bool) then infer_columns rest (i + 1) labelCol isNonFeature featureNames
      else if bool_decide (labelCol = -1) then
        isNonFeature' ← vec_store isNonFeature i true;
        infer_columns rest (i + 1) i isNonFeature' featureNames
      else infer_columns rest (i + 1) labelCol isNonFeature (featureNames ++ [name])
  end.

(** What the constructor knows once the schema is built (line 149). *)
Record Layout : Type := mkLayout {
  lay_stream : ifstream;
  lay_numCols : Z;
  lay_labelCol : Z;
  lay_isNonFeature : list bool;
  lay_featureNames : list string;
}.

Definition TextLoader_layout (fileStream : ifstream) (cfg : Settings) : outcome Layout :=
  _ ← Check ArgumentException (good fileStream);
  let '(fs, header) := read_header (header_rounds fileStream) fileStream EmptyString in
  _ ← Check ArgumentException (good fs);
  let cols := Split header (separator cfg) in
  let numCols := size_of cols in
  isNonFeature ← mark_columns cfg numCols;
  '(labelCol, isNonFeature', featureNames) ←
    infer_columns cols 0 (labelCol cfg) isNonFeature [];
  Ok (mkLayout fs numCols labelCol isNonFeature' featureNames).

(** Lines 151 to 158: the probe of the first data row. *)
Record Probe : Type := mkProbe {
  probe_stream : ifstream;
  probe_dataSeekPosition : Z;
  probe_isSparse : bool;
}.

Definition TextLoader_probe (cfg : Settings) (lay : Layout) : outcome Probe :=
  let '(fs1, pos) := tellg (lay_stream lay) in
  let dataSeekPosition := to_size_t pos in
  let '(fs2, firstDataLine) := getline fs1 EmptyString in
  let firstDataLineColumns := Split firstDataLine (separator cfg) in
  let firstInstanceColumnCount := size_of firstDataLineColumns in
  _ ← Check domain_error (bool_decide (firstInstanceColumnCount ≤ lay_numCols lay));
  Ok (mkProbe fs2 dataSeekPosition (bool_decide (firstInstanceColumnCount < lay_numCols lay))).

Record TextLoader : Type := mkTextLoader {
  schema_ : list string;
  isSparse_ : bool;
  state_ : State;
}.

(** Modelled from the spec: [DataSchema::Dimension] is declared elsewhere;
    the spec's dimension is the number of feature names. *)
Definition Dimension (featureNames : list string) : Z := size_of featureNames.

(** Lines 160 to 169. *)
Definition TextLoader_finish (errno : Z) (cfg : Settings) (lay : Layout) (pr : Probe)
    : outcome TextLoader :=
  let dimension := Dimension (lay_featureNames lay) in
  parser ←
    (if probe_isSparse pr then
       p ← SparseParser_ctor dimension (lay_labelCol lay) (weightCol cfg)
             (nameCol cfg) (separator cfg) (labelMapFile cfg);
       Ok (IsSparse p)
     else
       p ← DenseParser_ctor dimension (lay_labelCol lay) (weightCol cfg)
             (nameCol cfg) (lay_isNonFeature lay) (separator cfg)
             (labelMapFile cfg);
       Ok (IsDense p));
  let '(state, r) := State_ctor errno (probe_stream pr) (probe_dataSeekPosition pr) parser in
  _ ← r;
  if cache cfg then
    let '(state', r') := Cache errno state in
    _ ← r';
    Ok (mkTextLoader (lay_featureNames lay) (probe_isSparse pr) state')
  else Ok (mkTextLoader (lay_featureNames lay) (probe_isSparse pr) state).

Definition TextLoader_ctor (errno : Z) (fileStream : ifstream) (cfg : Settings)
    : outcome TextLoader :=
  lay ← TextLoader_layout fileStream cfg;
  pr ← TextLoader_probe cfg lay;
  TextLoader_finish errno cfg lay pr.

End Loader.

(** ** A reference platform

    An executable instance of [Platform], used to run the model on concrete
    files and rows.  Float values stay symbolic: a value is named by how it
    was obtained, and no two names are identified.  [strtol10] is the C
    routine [strtol] for base 10 with a 64-bit [long]. *)

Module Reference.

Inductive value : Type :=
  | of_int (z : Z)
  | incr (v : value)
  | literal (s : string).

Definition is_digit (c : ascii) : bool :=
  let n := nat_of_ascii c in (48 <=? n)%nat && (n <=? 57)%nat.

Definition is_space (c : ascii) : bool :=
  let n := nat_of_ascii c in (n =? 32)%nat || ((9 <=? n)%nat && (n <=? 13)%nat).

Definition digit (c : ascii) : Z := Z.of_nat (nat_of_ascii c) - 48.

Fixpoint digits (s : list ascii) (acc : Z) (n : nat) : Z * nat :=
  match s with
  | c :: rest => if is_digit c then digits rest (10 * acc + digit c) (S n) else (acc, n)
  | [] => (acc, n)
  end.

Fixpoint spaces (s : list ascii) : nat :=
  match s with
  | c :: rest => if is_space c then S (spaces rest) else O
  | [] => O
  end.

Definition minus : ascii := ascii_of_nat 45.
Definition plus : ascii := ascii_of_nat 43.
Definition dot : ascii := ascii_of_nat 46.

Definition strtol10 (s : string) : Z * nat * bool :=
  let l := list_ascii_of_string s in
  let w := spaces l in
  let body := drop w l in
  let '(negative, signed) :=
    match body with
    | c :: _ => if decide (c = minus) then (true, 1%nat)
                else if decide (c = plus) then (false, 1%nat) else (false, O)
    | [] => (false, O)
    end in
  let '(magnitude, n) := digits (drop signed body) 0 O in
  if bool_decide (n = O) then (0, O, false)
  else
    let v := if (negative : bool) then - magnitude else magnitude in
    if bool_decide (v < - 2 ^ 63) then (- 2 ^ 63, (w + signed + n)%nat, true)
    else if bool_decide (2 ^ 63 ≤ v) then (2 ^ 63 - 1, (w + signed + n)%nat, true)
    else (v, (w + signed + n)%nat, false).

(** Decimal literals [[-]digits[.digits]]. *)
Definition numeric (s : string) : bool :=
  let l := list_ascii_of_string s in
  let body := match l with
              | c :: rest => if decide (c = minus) then rest else l
              | [] => l
              end in
  let '(_, n) := digits body 0 O in
  match drop n body with
  | [] => negb (bool_decide (n = O))
  | c :: frac =>
      bool_decide (c = dot) && negb (bool_decide (n = O))
      && forallb is_digit frac && negb (bool_decide (frac = []))
  end.

Definition stof_decimal (s : string) : option value :=
  if numeric s then Some (literal s) else None.

Definition strtof_symbolic (s : string) : value * bool := (literal s, false).

Fixpoint split_chars (s : list ascii) (sep : ascii) (field : list ascii) : list string :=
  match s with
  | [] => [string_of_list_ascii (rev field)]
  | c :: rest =>
      if decide (c = sep) then string_of_list_ascii (rev field) :: split_chars rest sep []
      else split_chars rest sep (c :: field)
  end.

Definition split_on (s : string) (sep : ascii) : list string :=
  split_chars (list_ascii_of_string s) sep [].

Fixpoint drop_spaces (s : list ascii) : list ascii :=
  match s with
  | c :: rest => if is_space c then drop_spaces rest else s
  | [] => []
  end.

Definition trim (s : string) : string :=
  string_of_list_ascii
    (rev (drop_spaces (rev (drop_spaces (list_ascii_of_string s))))).

Definition blank (s : string) : bool :=
  forallb is_space (list_ascii_of_string s).

(** [files] gives the lines of the file at a path. *)
Definition platform (files : string → list string) : Platform :=
  {| float := value;
     float_of_int := of_int;
     float_incr := incr;
     stof := stof_decimal;
     strtol := strtol10;
     strtof := strtof_symbolic;
     Split := split_on;
     Trim := trim;
     IsEmptyOrWhiteSpace := blank;
     ReadAllLines := files |}.

Definition no_files : string → list string := λ _, [].

(** The fields of a row joined by tabs, and the rows of a file each ended by
    a newline. *)
Fixpoint row (fields : list string) : string :=
  match fields with
  | [] => EmptyString
  | [f] => f
  | f :: rest => f +:+ String tab (row rest)
  end.

Fixpoint file (rows : list string) : list ascii :=
  match rows with
  | [] => []
  | r :: rest => list_ascii_of_string r ++ newline :: file rest
  end.

End Reference.

(** ** A platform with binary32 floats

    The C++ type [float] as IEEE 754 binary32 (24 bits of precision,
    round to nearest even), on the specification of [SpecFloat].  The
    string routines are those of the reference platform; [stof] and
    [strtof] read the same decimal literals, correctly rounded. *)

Module Binary32.
Import Reference.

Definition prec : Z := 24.
Definition emax : Z := 128.

(** [(float) z] *)
Definition of_Z (z : Z) : spec_float := binary_normalize prec emax z 0 false.

(** [counter++]: the sum [counter + 1], rounded. *)
Definition plus_one (x : spec_float) : spec_float := SFadd prec emax x (of_Z 1).

(** The integer [n] with its sign, not rounded. *)
Definition exact (negative : bool) (n : Z) : spec_float :=
  match n with
  | Zpos m => S754_finite negative m 0
  | _ => S754_zero negative
  end.

(** The value of a literal [[-]digits[.digits]]: its digits as an integer,
    divided by the power of ten of its fraction digits, rounded once. *)
Definition decimal (s : string) : spec_float :=
  let l := list_ascii_of_string s in
  let '(negative, body) :=
    match l with
    | c :: rest => if decide (c = minus) then (true, rest) else (false, l)
    | [] => (false, l)
    end in
  let '(whole, n) := digits body 0 O in
  let '(scaled, k) := digits (drop (S n) body) whole O in
  SFdiv prec emax (exact negative scaled) (exact false (10 ^ Z.of_nat k)).

Definition overflow (x : spec_float) : bool :=
  match x with
  | S754_infinity _ => true
  | _ => false
  end.

(** [std::stof] throws on a text it does not read and on a value too large
    for a [float]. *)
Definition stof_decimal32 (s : string) : option spec_float :=
  if numeric s && negb (overflow (decimal s)) then Some (decimal s) else None.

(** [strtof] returns 0 for a text it does not read, and sets [errno] on a
    value too large for a [float]. *)
Definition strtof_decimal32 (s : string) : spec_float * bool :=
  if numeric s then (decimal s, overflow (decimal s)) else (of_Z 0, false).

Definition platform (files : string → list string) : Platform :=
  {| float := spec_float;
     float_of_int := of_Z;
     float_incr := plus_one;
     stof := stof_decimal32;
     strtol := strtol10;
     strtof := strtof_decimal32;
     Split := split_on;
     Trim := trim;
     IsEmptyOrWhiteSpace := blank;
     ReadAllLines := files |}.

End Binary32.

(** ** Distinct keys

    The key of line [i]: the letter [k] followed by the binary digits of
    [i + 1], lowest digit first. *)

Fixpoint bits (p : positive) : string :=
  match p with
  | xH => "1"
  | xO q => String "0" (bits q)
  | xI q => String "1" (bits q)
  end.

Definition key_of (i : nat) : string := String "k" (bits (Pos.of_succ_nat i)).

Definition many_keys (n : nat) : list string := key_of <$> seq 0 n.

(** * Notions used in the statements *)

(** Bytes left to read. *)
Definition remaining (fs : ifstream) : nat := length (contents fs) - gpos fs.

(** One of the three blocks of lines 120 to 134: the range check on the
    configured column [c], then the flag written at [target]. *)
Definition mark_one (c target numCols : Z) (isNonFeature : list bool)
    : outcome (list bool) :=
  if bool_decide (c ≠ -1) then
    _ ← Check domain_error (bool_decide (0 ≤ c) && bool_decide (to_size_t c < numCols));
    vec_store isNonFeature target true
  else Ok isNonFeature.

(** The first position, counted from [i], whose flag is clear. *)
Fixpoint first_clear (flags : list bool) (i : Z) : option Z :=
  match flags with
  | [] => None
  | b :: rest => if b then first_clear rest (i + 1) else Some i
  end.

(** The names whose flag is clear, in their order. *)
Fixpoint unmarked (names : list string) (flags : list bool) : list string :=
  match names, flags with
  | name :: names', b :: flags' =>
      if b then unmarked names' flags' else name :: unmarked names' flags'
  | _, _ => []
  end.

(** A configured column index: absent, or a position of the header. *)
Definition column_ok (c numCols : Z) : Prop := c = -1 ∨ 0 ≤ c < numCols.

Section Notions.
Context `{PF : Platform}.

(** The condition of the [while] loop. *)
Definition header_wanted (fs : ifstream) (header : string) : bool :=
  good fs && (bool_decide (String.length header = O) || starts_with header "//").

(** The line [Reset] reads in the streaming branch. *)
Definition first_row (st : State) : ifstream * string :=
  getline (mkStream (contents (fstream_ st)) (Z.to_nat (dataSeekPosition_ st)) false false)
          EmptyString.

(** The value the source reads at column [k]: [stof(columns[k])]. *)
Definition read_at (columns : list string) (k : Z) : option float :=
  columns !! Z.to_nat k ≫= stof.

Definition is_sparse_parser (p : AnyParser) : bool :=
  match p with
  | IsSparse _ => true
  | IsDense _ => false
  end.

(** The row the constructor reads after the header. *)
Definition probe_row (lay : Layout) : string :=
  snd (getline (fst (tellg (lay_stream lay))) EmptyString).

(** The value of [counter] after [i] rounds of [counter++], from [0]. *)
Definition counter_after (i : nat) : float := Nat.iter i float_incr (float_of_int 0).

(** How the source obtains the label, the weight and the name from the
    text of their columns. *)
Definition label_of (p : ExampleParser) (text : string) : option float :=
  if bool_decide (labelMap_ p = ∅) then stof text else labelMap_ p !! text.

Definition weight_of (p : ExampleParser) (columns : list string) : option float :=
  if bool_decide (0 ≤ weightCol_ p)
  then columns !! Z.to_nat (weightCol_ p) ≫= stof
  else Some (float_of_int 1).

Definition name_of (p : ExampleParser) (columns : list string) : option (option string) :=
  if bool_decide (0 ≤ nameCol_ p)
  then Some <$> columns !! Z.to_nat (nameCol_ p)
  else Some None.

(** The offset the constructor computes. *)
Definition sparse_offset (weightCol nameCol : Z) : Z :=
  1 + (if bool_decide (0 ≤ weightCol) then 1 else 0)
    + (if bool_decide (0 ≤ nameCol) then 1 else 0).

(** A line of the two-column form: its key and the value of its second
    field, when it has exactly two fields and [stof] reads the second. *)
Definition pair_of (line : string) : option (string * float) :=
  match Split line tab with
  | [key; text] => value ← stof text; Some (key, value)
  | _ => None
  end.

(** A line the header loop passes over: blank or a comment once trimmed. *)
Definition skipped_line (l : string) : Prop :=
  String.length (Trim l) = O ∨ starts_with (Trim l) "//" = true.

(** A line the header loop stops at. *)
Definition header_line (h : string) : Prop :=
  String.length (Trim h) ≠ O ∧ starts_with (Trim h) "//" = false.

(** The assignments [labelMap_[key] = value], in the order of the list. *)
Definition insert_pairs (m : gmap string float) (pairs : list (string * float))
    : gmap string float :=
  foldl (λ acc kv, <[kv.1 := kv.2]> acc) m pairs.

(** A streaming cursor whose stream is good and stands at the beginning
    of the rows [rows], each ended by a newline. *)
Definition at_rows (st : State) (rows : list string) : Prop :=
  cache_ st = []
  ∧ good (fstream_ st) = true
  ∧ drop (gpos (fstream_ st)) (contents (fstream_ st)) = Reference.file rows.

(** A row is a line: it holds no newline. *)
Definition one_line (r : string) : Prop := newline ∉ list_ascii_of_string r.

End Notions.

(** ** Sample parsers and files *)

Section Samples.
Import Reference.

#[local] Instance sample_platform : Platform := platform no_files.

(** A sparse parser as the loader can build one: label, weight and name in
    columns 0, 1 and 2, five features. *)
Definition sample_sparse : SparseParser :=
  mkSparseParser (mkExampleParser 5 0 1 2 tab ∅) 3.

(** A dense parser for the header [label f1 f2]. *)
Definition sample_dense : DenseParser :=
  mkDenseParser (mkExampleParser 2 0 (-1) (-1) tab ∅) [1; 2].

(** A dense parser for the header [f1 f2 label] with the label configured
    as column 2. *)
Definition label_last : DenseParser :=
  mkDenseParser (mkExampleParser 2 2 (-1) (-1) tab ∅) [0; 1].

Definition weighted_file : list ascii :=
  file [row ["label"; "weight"; "name"; "f1"]; row ["1"; "2"; "a"; "0.5"]].

Definition weighted_settings : Settings := mkSettings tab 0 1 2 EmptyString false.

Definition two_rows : list ascii :=
  file [row ["label"; "f1"; "f2"]; row ["1"; "0.5"; "0.25"]; row ["0"; "1.5"; "2.25"]].

Definition streaming_settings : Settings := mkSettings tab (-1) (-1) (-1) EmptyString false.

(** The two data rows of [two_rows] as examples. *)
Definition first_example : Example :=
  mkExample (DenseVector [literal "0.5"; literal "0.25"]) (literal "1") (of_int 1) None.

Definition second_example : Example :=
  mkExample (DenseVector [literal "1.5"; literal "2.25"]) (literal "0") (of_int 1) None.

(** A file for that header whose second row stops after two fields. *)
Definition short_row_file : list ascii :=
  file [row ["f1"; "f2"; "label"]; row ["0.5"; "0.25"; "1"]; row ["1.5"; "2.25"]].

Definition label_files (path : string) : list string :=
  if bool_decide (path = "labels") then ["k0"; "k1"; "k2"]
  else if bool_decide (path = "twice") then ["k0"; "k1"; "k0"]
  else [].

#[local] Instance label_platform : Platform := platform label_files.

End Samples.

(** ** More sample files *)

Section MoreSamples.
Import Reference.
#[local] Existing Instance sample_platform.

(** A dense file whose header comes after a comment and a blank line. *)
Definition commented_file : list ascii :=
  file ["// two features"; EmptyString; row ["label"; "f1"; "f2"]]
  ++ file [row ["1"; "0.5"; "0.25"]].

(** The bytes of the header line of [two_rows]. *)
Definition two_rows_header : list ascii :=
  list_ascii_of_string (row ["label"; "f1"; "f2"]) ++ [newline].

(** A streaming cursor at the end of [two_rows], and one before a row that
    does not parse. *)
Definition cursor_at_end : State :=
  mkState (mkStream two_rows (length two_rows) false false) 12 (IsDense sample_dense)
    [] (Heap second_example).

Definition cursor_before_bad_row : State :=
  mkState (open_file (Some (file ["x"; row ["1"; "0.5"; "0.25"]]))) 0
    (IsDense sample_dense) [] Null.

(** A cursor with two cached examples. *)
Definition cached_cursor : State :=
  mkState (open_file None) 12 (IsDense sample_dense) [first_example; second_example]
    Null.

(** A two-column label map with a repeated key, and one with a line of a
    single field. *)
Definition pair_files (path : string) : list string :=
  if bool_decide (path = "pairs") then [row ["a"; "1.5"]; row ["b"; "-2.0"]; row ["a"; "3"]]
  else if bool_decide (path = "broken") then [row ["a"; "1.5"]; "b"]
  else if bool_decide (path = "single") then ["a"]
  else [].

#[local] Instance pair_platform : Platform := platform pair_files.

End MoreSamples.

Section CounterSamples.
Import Reference.
#[local] Existing Instance sample_platform.

(** A file with a label column and no feature column, and the dense
    parser the loader builds for it. *)
Definition label_only_file : list ascii := file ["label"; "1"; "0"].

Definition label_only : DenseParser :=
  mkDenseParser (mkExampleParser 0 0 (-1) (-1) tab ∅) [].

(** A one-column label map of [2 ^ 24 + 3] distinct keys. *)
Definition long_map_lines : nat := Z.to_nat (2 ^ 24 + 3).

Definition long_files (path : string) : list string :=
  if bool_decide (path = "long") then many_keys long_map_lines else label_files path.

#[local] Instance binary32_platform : Platform := Binary32.platform long_files.

End CounterSamples.

(** * Properties *)

(** ** Outcomes *)

Lemma bind_Ok {A B} (m : outcome A) (k : A → outcome B) (b : B) :
  m ≫= k = Ok b ↔ ∃ a, m = Ok a ∧ k a = Ok b.
Proof.
  destruct m; simpl; split; try (intros (a0 & Hm & Hk)); try discriminate; eauto.
  by inversion Hm; subst.
Qed.

Lemma Check_Ok (e : exn) (c : bool) (u : unit) : Check e c = Ok u ↔ c = true.
Proof. destruct c, u; simpl; split; congruence. Qed.

Lemma Check_true (e : exn) : Check e true = Ok tt.
Proof. reflexivity. Qed.

Lemma Check_false (e : exn) : Check e false = Threw e.
Proof. reflexivity. Qed.

Lemma vec_store_Ok {A} (v v' : list A) (i : Z) (x : A) :
  vec_store v i x = Ok v' ↔ 0 ≤ i < size_of v ∧ v' = <[Z.to_nat i := x]> v.
Proof.
  unfold vec_store. case_decide as Hi; split.
  - by intros [= <-].
  - by intros [_ ->].
  - discriminate.
  - intros [Hr _]. by destruct Hi.
Qed.

Lemma vec_at_Ok {A} (v : list A) (i : Z) (x : A) :
  vec_at v i = Ok x ↔ 0 ≤ i ∧ v !! Z.to_nat i = Some x.
Proof.
  unfold vec_at. case_decide as Hi.
  - destruct (v !! Z.to_nat i) as [y|]; split.
    + by intros [= <-].
    + by intros [_ [= <-]].
    + discriminate.
    + by intros [_ ?].
  - split; [discriminate | by intros [? _]].
Qed.

Lemma vec_at_beyond {A} (v : list A) (i : Z) :
  i < 0 ∨ size_of v ≤ i → vec_at v i = Undefined.
Proof.
  unfold vec_at, size_of. intros Hi. case_decide; [|done].
  rewrite (lookup_ge_None_2 v (Z.to_nat i)); [done | lia].
Qed.

Lemma size_of_insert {A} (v : list A) (i : nat) (x : A) :
  size_of (<[i := x]> v) = size_of v.
Proof. unfold size_of. by rewrite length_insert. Qed.

Lemma size_of_replicate {A} (n : Z) (x : A) :
  0 ≤ n → size_of (replicate (Z.to_nat n) x) = n.
Proof. unfold size_of. rewrite length_replicate. lia. Qed.

Lemma to_size_t_small (z : Z) : 0 ≤ z < 2 ^ 64 → to_size_t z = z.
Proof. unfold to_size_t. intros. by apply Z.mod_small. Qed.

Lemma to_size_t_range (z : Z) : 0 ≤ to_size_t z < 2 ^ 64.
Proof. unfold to_size_t. apply Z.mod_pos_bound. lia. Qed.

Lemma to_size_t_negative (z : Z) : int_range z → z < 0 → 2 ^ 63 ≤ to_size_t z.
Proof.
  unfold to_size_t, int_range. intros Hr Hneg.
  replace z with (z + 2 ^ 64 - 1 * 2 ^ 64) by lia.
  rewrite Zminus_mod, Z_mod_mult, Z.sub_0_r, Z.mod_mod by lia.
  rewrite Z.mod_small; lia.
Qed.

(** ** SparseParser::ParseFeatures writes at [j], not at [i] *)

Section SparseFacts.
Context `{PF : Platform}.

Lemma sparse_step_Ok (dimension : Z) (columns : list string) (s s' : sparse_state) :
  sparse_step dimension columns s = Ok s' →
  0 ≤ ss_j s < size_of (ss_indices s)
  ∧ ss_j s' = ss_j s + 1
  ∧ size_of (ss_indices s') = size_of (ss_indices s)
  ∧ ss_lastIndex s < ss_lastIndex s' < dimension.
Proof.
  unfold sparse_step. intros H.
  apply bind_Ok in H as (column & _ & H).
  destruct (strtol column) as [[parsed consumed] range].
  apply bind_Ok in H as ([] & _ & H).
  apply bind_Ok in H as ([] & Horder & H).
  destruct (strtof _) as [value range'].
  apply bind_Ok in H as ([] & _ & H).
  apply bind_Ok in H as (indices & Hi & H).
  apply bind_Ok in H as (values & _ & H).
  inversion H; subst; clear H. simpl.
  apply vec_store_Ok in Hi as [Hj ->].
  apply Check_Ok, negb_true_iff, orb_false_iff in Horder as [H1 H2].
  apply bool_decide_eq_false in H1, H2.
  rewrite size_of_insert. lia.
Qed.

(** A loop that completes has made all its writes inside [indices]. *)
Lemma sparse_loop_Ok (dimension : Z) (columns : list string) (n : nat)
    (s s' : sparse_state) :
  sparse_loop dimension columns n s = Ok s' →
  n ≠ O → ss_j s + Z.of_nat n ≤ size_of (ss_indices s).
Proof.
  revert s. induction n as [|n IH]; intros s H Hn; [done|].
  simpl in H. apply bind_Ok in H as (s1 & Hstep & Hloop).
  apply sparse_step_Ok in Hstep as (Hj & Hj' & Hsize & _).
  destruct n as [|n]; [lia|].
  specialize (IH s1 Hloop ltac:(done)). lia.
Qed.

(** No row makes the call return a vector: the last write is always past
    the end of the arrays. *)
Lemma SparseParser_ParseFeatures_never_Ok (p : SparseParser) (errno : Z)
    (columns : list string) (v : Vector) :
  1 ≤ featureColumnOffset_ p →
  SparseParser_ParseFeatures p errno columns ≠ Ok v.
Proof.
  intros Hoff H. unfold SparseParser_ParseFeatures in H.
  apply bind_Ok in H as ([] & Hcount & H).
  apply bind_Ok in H as (s & Hloop & _).
  apply Check_Ok, andb_true_iff in Hcount as [Hpos _].
  apply bool_decide_eq_true in Hpos.
  apply sparse_loop_Ok in Hloop; [|lia].
  cbn [ss_j ss_indices] in Hloop. rewrite size_of_replicate in Hloop; lia.
Qed.

Lemma SparseParser_ctor_offset (dimension labelCol weightCol nameCol : Z)
    (separator : ascii) (labelMapFile : string) (p : SparseParser) :
  SparseParser_ctor dimension labelCol weightCol nameCol separator labelMapFile = Ok p →
  featureColumnOffset_ p
  = 1 + (if bool_decide (weightCol < 0) then 0 else 1)
      + (if bool_decide (nameCol < 0) then 0 else 1)
  ∧ to_size_t labelCol < featureColumnOffset_ p
  ∧ to_size_t weightCol < featureColumnOffset_ p
  ∧ to_size_t nameCol < featureColumnOffset_ p.
Proof.
  unfold SparseParser_ctor. intros H.
  apply bind_Ok in H as (base & _ & H).
  apply bind_Ok in H as ([] & Hc & H).
  inversion H; subst; clear H. simpl.
  apply Check_Ok in Hc. rewrite !andb_true_iff, !bool_decide_eq_true in Hc.
  by destruct Hc as [[? ?] ?].
Qed.

End SparseFacts.

Section SparseOutcome.
Context `{PF : Platform}.

Lemma Check_Threw (e e' : exn) (c : bool) : Check e c = Threw e' → e' = e.
Proof. destruct c; simpl; congruence. Qed.

Lemma bind_Threw {A B} (m : outcome A) (k : A → outcome B) (e : exn) :
  m ≫= k = Threw e ↔ m = Threw e ∨ ∃ a, m = Ok a ∧ k a = Threw e.
Proof.
  destruct m as [a|e0|]; simpl; split.
  - intros H. right. by exists a.
  - intros [?|(a0 & [= <-] & ?)]; done.
  - intros [= ->]. by left.
  - intros [[= ->]|(a0 & ? & ?)]; done.
  - discriminate.
  - intros [?|(a0 & ? & ?)]; discriminate.
Qed.

Lemma vec_at_Threw {A} (v : list A) (i : Z) (e : exn) : vec_at v i ≠ Threw e.
Proof. unfold vec_at. case_decide; [destruct (v !! Z.to_nat i)|]; discriminate. Qed.

Lemma vec_store_Threw {A} (v : list A) (i : Z) (x : A) (e : exn) :
  vec_store v i x ≠ Threw e.
Proof. unfold vec_store. case_decide; discriminate. Qed.

Lemma sparse_step_Threw (dimension : Z) (columns : list string) (s : sparse_state)
    (e : exn) :
  sparse_step dimension columns s = Threw e → e = FormatException.
Proof.
  unfold sparse_step. intros H.
  apply bind_Threw in H as [H|(column & _ & H)]; [by apply vec_at_Threw in H|].
  destruct (strtol column) as [[parsed consumed] range].
  apply bind_Threw in H as [H|([] & _ & H)]; [by apply Check_Threw in H|].
  apply bind_Threw in H as [H|([] & _ & H)]; [by apply Check_Threw in H|].
  destruct (strtof _) as [value range'].
  apply bind_Threw in H as [H|([] & _ & H)]; [by apply Check_Threw in H|].
  apply bind_Threw in H as [H|(indices & _ & H)]; [by apply vec_store_Threw in H|].
  apply bind_Threw in H as [H|(values & _ & H)]; [by apply vec_store_Threw in H|].
  discriminate.
Qed.

Lemma sparse_loop_Threw (dimension : Z) (columns : list string) (n : nat)
    (s : sparse_state) (e : exn) :
  sparse_loop dimension columns n s = Threw e → e = FormatException.
Proof.
  revert s. induction n as [|n IH]; intros s H; [discriminate|].
  cbn [sparse_loop] in H.
  apply bind_Threw in H as [H|(s' & _ & H)]; [by apply sparse_step_Threw in H|].
  by apply IH in H.
Qed.

(** The only exception the call throws is [FormatException]; every other
    run ends in a write outside the arrays. *)
Lemma SparseParser_ParseFeatures_outcome (p : SparseParser) (errno : Z)
    (columns : list string) :
  1 ≤ featureColumnOffset_ p →
  SparseParser_ParseFeatures p errno columns = Threw FormatException
  ∨ SparseParser_ParseFeatures p errno columns = Undefined.
Proof.
  intros Hoff.
  destruct (SparseParser_ParseFeatures p errno columns) as [v|e|] eqn:H; [| |by right].
  - by apply SparseParser_ParseFeatures_never_Ok in H.
  - left. f_equal. unfold SparseParser_ParseFeatures in H.
    apply bind_Threw in H as [H|([] & _ & H)]; [by apply Check_Threw in H|].
    apply bind_Threw in H as [H|(s & _ & H)]; [by apply sparse_loop_Threw in H|].
    apply bind_Threw in H as [H|([] & _ & H)]; [by apply Check_Threw in H|].
    discriminate.
Qed.

End SparseOutcome.

(** *** On concrete rows *)

Section SparseSamples.
Import Reference.
#[local] Existing Instance sample_platform.

Lemma sample_sparse_built : SparseParser_ctor 5 0 1 2 tab EmptyString = Ok sample_sparse.
Proof. reflexivity. Qed.

(** C1 (defect): on the accepted row [1 1.0 n 0:1.0] the arrays have one
    element (count = 1) and the only pair is written at position j = 3, not
    at position i = 0: the write is outside the arrays and no vector is
    returned. *)
Theorem C1_sparse_pair_written_at_column_position :
  Split (row ["1"; "1.0"; "n"; "0:1.0"]) tab = ["1"; "1.0"; "n"; "0:1.0"]
  ∧ sparse_step 5 ["1"; "1.0"; "n"; "0:1.0"]
      (mkSparseState 0 3 0 (-1) [0] [of_int 0]) = Undefined
  ∧ vec_store [0] 3 0 = Undefined
  ∧ vec_store [0] 0 0 = Ok [0]
  ∧ SparseParser_ParseFeatures sample_sparse 0 ["1"; "1.0"; "n"; "0:1.0"] = Undefined.
Proof. repeat split; reflexivity. Qed.

(** C4 (defect, the one of C1): in the row [1 1.0 n 1:1.0 0:2.0] the second
    index is not above the first, yet the call does not end in a
    [FormatException]: the first pair is written outside the arrays before
    the second token is looked at. *)
Theorem C4_sparse_unordered_row_not_rejected :
  SparseParser_ParseFeatures sample_sparse 0 ["1"; "1.0"; "n"; "1:1.0"; "0:2.0"]
  = Undefined
  ∧ SparseParser_ParseFeatures sample_sparse 0 ["1"; "1.0"; "n"; "1:1.0"; "0:2.0"]
    ≠ Threw FormatException.
Proof. split; [reflexivity | discriminate]. Qed.

End SparseSamples.

(** ** The explicitly designated columns (lines 118 to 134) *)

Lemma column_check (c numCols : Z) :
  int_range c →
  bool_decide (0 ≤ c) && bool_decide (to_size_t c < numCols) = true
  ↔ 0 ≤ c < numCols.
Proof.
  unfold int_range. intros Hc.
  rewrite andb_true_iff, !bool_decide_eq_true. split.
  - intros [H0 H1]. rewrite to_size_t_small in H1; lia.
  - intros H. rewrite to_size_t_small; lia.
Qed.

Lemma mark_columns_blocks (cfg : Settings) (numCols : Z) :
  mark_columns cfg numCols
  = (l1 ← mark_one (labelCol cfg) (labelCol cfg) numCols (replicate (Z.to_nat numCols) false);
     l2 ← mark_one (nameCol cfg) (nameCol cfg) numCols l1;
     mark_one (weightCol cfg) (nameCol cfg) numCols l2).
Proof. reflexivity. Qed.

Lemma mark_one_own (c numCols : Z) (l : list bool) :
  int_range c → size_of l = numCols →
  mark_one c c numCols l = Threw domain_error
  ∨ ∃ l', mark_one c c numCols l = Ok l' ∧ size_of l' = numCols
          ∧ (c = -1 ∧ l' = l ∨ 0 ≤ c < numCols ∧ l' = <[Z.to_nat c := true]> l).
Proof.
  intros Hc Hl. unfold mark_one. case_bool_decide as Hset.
  - destruct (bool_decide (0 ≤ c) && bool_decide (to_size_t c < numCols)) eqn:Hchk;
      simpl; [|by left].
    apply column_check in Hchk; [|done]. right.
    unfold vec_store. rewrite decide_True by lia.
    eexists; split; [done|]. split; [by rewrite size_of_insert|]. by right.
  - right. exists l. split; [done|]. split; [done|]. left. split; [lia|done].
Qed.

(** An explicit weight index outside [0, numCols) ends the load with
    [domain_error]. *)
Lemma mark_columns_weight_out_of_range (cfg : Settings) (numCols : Z) :
  int_range (labelCol cfg) → int_range (nameCol cfg) → int_range (weightCol cfg) →
  0 ≤ numCols →
  weightCol cfg ≠ -1 → ¬ (0 ≤ weightCol cfg < numCols) →
  mark_columns cfg numCols = Threw domain_error.
Proof.
  intros Hl Hn Hw Hcols Hset Hout. rewrite mark_columns_blocks.
  destruct (mark_one_own (labelCol cfg) numCols (replicate (Z.to_nat numCols) false) Hl)
    as [->|(l1 & -> & Hs1 & _)]; [by apply size_of_replicate|done|]. simpl.
  destruct (mark_one_own (nameCol cfg) numCols l1 Hn Hs1)
    as [->|(l2 & -> & Hs2 & _)]; [done|]. simpl.
  unfold mark_one. rewrite bool_decide_eq_true_2 by done.
  destruct (bool_decide (0 ≤ weightCol cfg) && _) eqn:Hchk; [|done].
  apply column_check in Hchk; [lia|done].
Qed.

(** The weight block never marks the weight column: after the three
    blocks a weight column that is neither the label nor the name column
    is still a feature column. *)
Lemma mark_columns_weight_unmarked (cfg : Settings) (numCols : Z) (l : list bool) :
  int_range (labelCol cfg) → int_range (nameCol cfg) → int_range (weightCol cfg) →
  0 ≤ numCols →
  mark_columns cfg numCols = Ok l →
  weightCol cfg ≠ -1 →
  weightCol cfg ≠ labelCol cfg → weightCol cfg ≠ nameCol cfg →
  vec_at l (weightCol cfg) = Ok false.
Proof.
  intros Hl Hn Hw Hcols Hok Hset Hwl Hwn. rewrite mark_columns_blocks in Hok.
  destruct (mark_one_own (labelCol cfg) numCols (replicate (Z.to_nat numCols) false) Hl)
    as [E|(l1 & E & Hs1 & Hk1)]; [by apply size_of_replicate|by rewrite E in Hok|].
  rewrite E in Hok; simpl in Hok; clear E.
  destruct (mark_one_own (nameCol cfg) numCols l1 Hn Hs1)
    as [E|(l2 & E & Hs2 & Hk2)]; [by rewrite E in Hok|].
  rewrite E in Hok; simpl in Hok; clear E.
  unfold mark_one in Hok. rewrite bool_decide_eq_true_2 in Hok by done.
  apply bind_Ok in Hok as ([] & Hchk & Hstore).
  apply Check_Ok, column_check in Hchk; [|done].
  apply vec_store_Ok in Hstore as [Hname ->].
  apply vec_at_Ok. split; [lia|].
  rewrite list_lookup_insert_ne by lia.
  assert (l1 !! Z.to_nat (weightCol cfg) = Some false) as H1.
  { destruct Hk1 as [[_ ->]|[? ->]].
    - apply lookup_replicate_2. lia.
    - rewrite list_lookup_insert_ne by lia. apply lookup_replicate_2. lia. }
  destruct Hk2 as [[_ ->]|[? ->]]; [done|].
  by rewrite list_lookup_insert_ne by lia.
Qed.

(** ** The cursor: [Reset] after [MoveNext] *)

Section CursorFacts.
Context `{PF : Platform}.

Lemma MoveNext_keeps (errno : Z) (st : State) :
  let st' := fst (MoveNext errno st) in
  contents (fstream_ st') = contents (fstream_ st)
  ∧ dataSeekPosition_ st' = dataSeekPosition_ st
  ∧ parser_ st' = parser_ st
  ∧ cache_ st' = cache_ st.
Proof.
  unfold MoveNext. destruct (cache_ st) as [|e0 rest] eqn:Hc.
  - unfold getline. destruct (good (fstream_ st)).
    + destruct (scan_line _) as [[l n] e]. cbn [failbit].
      destruct (bool_decide (n = O)); [by cbn|].
      destruct (parser_Parse _ _ _); by cbn.
    + by cbn.
  - destruct (current_ st); try by cbn.
    case_decide; by cbn.
Qed.

Lemma MoveNext_times_keeps (errno : Z) (n : nat) (st : State) :
  let st' := MoveNext_times errno n st in
  contents (fstream_ st') = contents (fstream_ st)
  ∧ dataSeekPosition_ st' = dataSeekPosition_ st
  ∧ parser_ st' = parser_ st
  ∧ cache_ st' = cache_ st.
Proof.
  revert st. induction n as [|n IH]; intros st; [done|].
  cbn [MoveNext_times]. specialize (IH (fst (MoveNext errno st))).
  pose proof (MoveNext_keeps errno st) as Hk. cbn zeta in *.
  destruct IH as (-> & -> & -> & ->). done.
Qed.

Lemma Reset_streaming (errno : Z) (st : State) :
  cache_ st = [] → failbit (fstream_ st) = false →
  failbit (fst (first_row st)) = false →
  snd (Reset errno st)
  = (parser_Parse errno (parser_ st) (snd (first_row st)) ≫= λ _, Ok tt)
  ∧ (∀ e, parser_Parse errno (parser_ st) (snd (first_row st)) = Ok e →
          current (fst (Reset errno st)) = Some e).
Proof.
  intros Hc Hf Hrow. unfold Reset, first_row in *. rewrite Hc.
  unfold seekg. rewrite Hf.
  destruct (getline _ _) as [fs2 line]. cbn [fst snd] in *. rewrite Hrow.
  destruct (parser_Parse errno (parser_ st) line) as [e| |]; cbn; [|done|done].
  split; [done|]. by intros e' [= ->].
Qed.

(** A stream that has failed stays where it is: [Reset] trips the
    assertion and leaves the cursor on the example it was on. *)
Lemma Reset_after_exhaustion (errno : Z) (st : State) :
  cache_ st = [] → failbit (fstream_ st) = true →
  snd (Reset errno st) = Threw assertion_failure
  ∧ current (fst (Reset errno st)) = current st.
Proof.
  intros Hc Hf. unfold Reset. rewrite Hc. unfold seekg. rewrite Hf.
  unfold getline, good. cbn [eofbit failbit negb andb]. by cbn.
Qed.

Lemma State_ctor_Ok (errno : Z) (fs : ifstream) (pos : Z) (parser : AnyParser)
    (st : State) :
  State_ctor errno fs pos parser = (st, Ok tt) →
  failbit fs = false
  ∧ failbit (fst (first_row st)) = false
  ∧ contents (fstream_ st) = contents fs ∧ dataSeekPosition_ st = pos
  ∧ parser_ st = parser ∧ cache_ st = []
  ∧ ∃ e, parser_Parse errno parser (snd (first_row st)) = Ok e ∧ current st = Some e.
Proof.
  unfold State_ctor, Reset, first_row. cbn [cache_ fstream_ dataSeekPosition_ parser_ current_].
  unfold seekg. destruct (failbit fs) eqn:Hf.
  - unfold getline, good. cbn. discriminate.
  - unfold getline, good.
    cbn [eofbit failbit negb andb contents gpos].
    destruct (scan_line _) as [[l n] e] eqn:Hscan.
    destruct (bool_decide (n = O)) eqn:Hn; [discriminate|].
    destruct (parser_Parse errno parser _) as [ex| |] eqn:HP; [|discriminate..].
    intros [= <-]. cbn. rewrite Hscan. cbn. rewrite Hn.
    repeat split; try done. by exists ex.
Qed.

(** While the stream has not failed, [Reset] brings back the example the
    constructor produced. *)
Lemma Reset_restores_first_row (errno : Z) (fs : ifstream) (pos : Z)
    (parser : AnyParser) (st : State) (n : nat) :
  State_ctor errno fs pos parser = (st, Ok tt) →
  failbit (fstream_ (MoveNext_times errno n st)) = false →
  snd (Reset errno (MoveNext_times errno n st)) = Ok tt
  ∧ current (fst (Reset errno (MoveNext_times errno n st))) = current st.
Proof.
  intros Hctor Hf.
  apply State_ctor_Ok in Hctor as (_ & Hrow & _ & _ & Hp & Hc & e & HP & Hcur).
  pose proof (MoveNext_times_keeps errno n st) as (Hk1 & Hk2 & Hk3 & Hk4).
  set (stn := MoveNext_times errno n st) in *.
  assert (first_row stn = first_row st) as Hfr.
  { unfold first_row. by rewrite Hk1, Hk2. }
  destruct (Reset_streaming errno stn) as [Hr Hcurn].
  - by rewrite Hk4.
  - done.
  - by rewrite Hfr.
  - rewrite Hfr, Hk3, Hp in *. rewrite HP in Hr. split; [done|].
    rewrite Hcur. by apply Hcurn.
Qed.

(** In the cached branch [Reset] always returns to the first cached
    example. *)
Lemma Reset_cached (errno : Z) (st : State) (e : Example) (rest : list Example) (n : nat) :
  cache_ st = e :: rest →
  snd (Reset errno (MoveNext_times errno n st)) = Ok tt
  ∧ current (fst (Reset errno (MoveNext_times errno n st))) = Some e.
Proof.
  intros Hc. pose proof (MoveNext_times_keeps errno n st) as (_ & _ & _ & Hk).
  rewrite Hc in Hk. unfold Reset. rewrite Hk. cbn. by rewrite Hk.
Qed.

Lemma drain_prefix (errno : Z) (fuel : nat) (st st' : State) (acc rows : list Example) :
  drain errno fuel st acc = (st', Ok rows) → ∃ more, rows = acc ++ more.
Proof.
  revert st acc. induction fuel as [|fuel IH]; intros st acc; cbn [drain].
  - intros [= <- <-]. exists []. by rewrite app_nil_r.
  - destruct (MoveNext errno st) as [st1 [[]| |]]; try discriminate.
    + destruct (current st1) as [e|]; [|discriminate].
      intros (more & ->)%IH. exists (e :: more). by rewrite <- app_assoc.
    + intros [= <- <-]. exists []. by rewrite app_nil_r.
Qed.

(** The cache starts with the example that was current when [Cache] was
    called, that is, with the example of the constructor's [Reset]. *)
Lemma Cache_head (errno : Z) (st st' : State) (e : Example) :
  current st = Some e → Cache errno st = (st', Ok tt) →
  ∃ rest, cache_ st' = e :: rest.
Proof.
  unfold Cache. intros ->.
  destruct (drain errno (drain_rows st) st [e]) as [st1 [rows| |]] eqn:Hd;
    [|discriminate..].
  intros [= <-]. apply drain_prefix in Hd as (more & ->). by exists more.
Qed.

End CursorFacts.

(** ** The stream: every loop over the file ends *)

Lemma scan_line_length (rest : list ascii) :
  (snd (fst (scan_line rest)) ≤ length rest)%nat.
Proof.
  induction rest as [|c rest IH]; cbn [scan_line]; [done|].
  case_decide; cbn; [lia|].
  destruct (scan_line rest) as [[l n] e]. cbn in *. lia.
Qed.

(** [getline] on a good stream either leaves it failed or moves forward. *)
Lemma getline_progress (fs : ifstream) (str : string) :
  good fs = true →
  failbit (fst (getline fs str)) = true
  ∨ (remaining (fst (getline fs str)) < remaining fs)%nat.
Proof.
  intros Hg. unfold getline. rewrite Hg.
  pose proof (scan_line_length (drop (gpos fs) (contents fs))) as Hn.
  destruct (scan_line _) as [[l n] e]. cbn in *.
  case_bool_decide; [by left|right].
  rewrite length_drop in Hn. unfold remaining. cbn. lia.
Qed.

Lemma failbit_not_good (fs : ifstream) : failbit fs = true → good fs = false.
Proof. unfold good. intros ->. apply andb_false_r. Qed.

Section HeaderLoop.
Context `{PF : Platform}.

(** With [header_rounds] rounds the loop has stopped by itself: on exit
    its condition is false. *)
Lemma read_header_stops (fuel : nat) (fs : ifstream) (header : string) :
  good fs = false ∨ (remaining fs < fuel)%nat →
  header_wanted (fst (read_header fuel fs header)) (snd (read_header fuel fs header))
  = false.
Proof.
  revert fs header. induction fuel as [|fuel IH]; intros fs header Hfuel.
  - destruct Hfuel as [Hg|?]; [|lia]. cbn. unfold header_wanted. by rewrite Hg.
  - cbn [read_header]. fold (header_wanted fs header).
    destruct (header_wanted fs header) eqn:Hw; [|by cbn].
    assert (good fs = true) as Hg by (unfold header_wanted in Hw; by destruct (good fs)).
    pose proof (getline_progress fs header Hg) as Hp.
    destruct (getline fs header) as [fs' h]. cbn [fst] in Hp.
    apply IH. destruct Hp as [Hf|Hlt]; [left; by apply failbit_not_good|].
    right. destruct Hfuel as [?|?]; [congruence|lia].
Qed.

Lemma read_header_total (fs : ifstream) :
  header_wanted (fst (read_header (header_rounds fs) fs EmptyString))
                (snd (read_header (header_rounds fs) fs EmptyString)) = false.
Proof. apply read_header_stops. right. unfold header_rounds, remaining. lia. Qed.

End HeaderLoop.

Section DrainLoop.
Context `{PF : Platform}.

(** More fuel than [drain_rows] never changes what [drain] returns: the
    loop ends because [MoveNext] returns false or fails, not because the
    fuel is used up. *)
Lemma drain_enough (errno : Z) (fuel extra : nat) (st : State) (acc : list Example) :
  cache_ st = [] →
  (remaining (fstream_ st) < fuel)%nat →
  drain errno (fuel + extra) st acc = drain errno fuel st acc.
Proof.
  revert st acc. induction fuel as [|fuel IH]; intros st acc Hc Hfuel; [lia|].
  cbn [drain Nat.add].
  pose proof (MoveNext_keeps errno st) as (_ & _ & _ & Hk).
  assert (∀ st' b, MoveNext errno st = (st', Ok b) → b = true →
            (remaining (fstream_ st') < fuel)%nat) as Hprog.
  { unfold MoveNext. rewrite Hc. intros st' b.
    destruct (good (fstream_ st)) eqn:Hg.
    - pose proof (getline_progress (fstream_ st) EmptyString Hg) as Hp.
      destruct (getline _ _) as [fs line]. cbn [fst] in Hp.
      destruct (failbit fs) eqn:Hf; [by intros [= <- <-]|].
      destruct Hp as [?|Hlt]; [congruence|].
      destruct (parser_Parse _ _ _); intros [= <- <-]; intros _; cbn; lia.
    - unfold getline. rewrite Hg. cbn. by intros [= <- <-]. }
  destruct (MoveNext errno st) as [st' [[]| |]] eqn:HM; try done.
  destruct (current st'); [|done]. apply IH.
  - cbn [fst] in Hk. by rewrite Hk.
  - by eapply Hprog.
Qed.

End DrainLoop.

(** ** DenseParser *)

Lemma feature_positions_bounds (nonFeature : list bool) (i k : Z) :
  k ∈ feature_positions nonFeature i → i ≤ k < i + size_of nonFeature.
Proof.
  revert i. induction nonFeature as [|b rest IH]; intros i; cbn [feature_positions].
  - by intros ?%elem_of_nil.
  - unfold size_of in *. cbn [length]. destruct b.
    + intros H%IH. lia.
    + intros [->|H%IH]%elem_of_cons; lia.
Qed.

Lemma feature_positions_elem (nonFeature : list bool) (i k : Z) :
  k ∈ feature_positions nonFeature i
  ↔ i ≤ k ∧ nonFeature !! Z.to_nat (k - i) = Some false.
Proof.
  revert i. induction nonFeature as [|b rest IH]; intros i; cbn [feature_positions].
  - split; [by intros ?%elem_of_nil | by intros [_ ?]].
  - destruct (decide (k = i)) as [->|Hne].
    + replace (i - i) with 0 by lia. cbn. destruct b.
      * split; [intros H%feature_positions_bounds; lia | by intros [_ ?]].
      * split; [done | intros _; by left].
    + assert (i ≤ k → Z.to_nat (k - i) = S (Z.to_nat (k - (i + 1)))) as Hs by lia.
      destruct b.
      * rewrite IH. split; intros [? H]; (split; [lia|]).
        -- by rewrite Hs by lia.
        -- by rewrite Hs in H by lia.
      * rewrite elem_of_cons, IH. split.
        -- intros [?|[? H]]; [done|]. split; [lia|]. by rewrite Hs by lia.
        -- intros [? H]. right. split; [lia|]. by rewrite Hs in H by lia.
Qed.

Lemma feature_positions_sorted (nonFeature : list bool) (i : Z) :
  StronglySorted Z.lt (feature_positions nonFeature i).
Proof.
  revert i. induction nonFeature as [|b rest IH]; intros i; cbn [feature_positions].
  - constructor.
  - destruct b; [apply IH|]. constructor; [apply IH|].
    apply Forall_forall. intros k Hk%feature_positions_bounds. lia.
Qed.

(** The last element of an ascending list is its largest. *)
Lemma sorted_last_largest (l : list Z) (back : Z) :
  StronglySorted Z.lt l → last l = Some back → Forall (λ k, k ≤ back) l.
Proof.
  intros Hs. induction Hs as [|x l Hs IH Hx]; [done|].
  destruct l as [|y l'].
  - intros [= ->]. by repeat constructor.
  - rewrite last_cons_cons. intros Hl. specialize (IH Hl). constructor; [|done].
    apply Forall_cons in Hx as [Hxy _]. apply Forall_cons in IH as [Hy _]. lia.
Qed.

Section DenseFacts.
Context `{PF : Platform}.

Lemma vec_at_nat {A} (v : list A) (i : nat) (x : A) :
  v !! i = Some x → vec_at v (Z.of_nat i) = Ok x.
Proof. intros H. apply vec_at_Ok. rewrite Nat2Z.id. split; [lia|done]. Qed.

Lemma dense_loop_run (parseIndices : list Z) (columns : list string) :
  Forall (λ k, 0 ≤ k < size_of columns) parseIndices →
  ∀ (n i : nat) (features : list float),
    (n + i)%nat = length parseIndices → length features = length parseIndices →
    dense_loop parseIndices columns n (Z.of_nat i) features
    = match mapM (read_at columns) (drop i parseIndices) with
      | Some values => Ok (take i features ++ values)
      | None => Threw stof_error
      end.
Proof.
  intros Hin. induction n as [|n IH]; intros i features Hn Hlen.
  - cbn [dense_loop]. rewrite drop_ge by lia. cbn.
    rewrite take_ge by lia. by rewrite app_nil_r.
  - cbn [dense_loop].
    destruct (lookup_lt_is_Some_2 parseIndices i) as [k Hk]; [lia|].
    rewrite (vec_at_nat _ _ _ Hk). cbn [mbind outcome_bind].
    rewrite (drop_S _ _ _ Hk).
    pose proof (proj1 (Forall_lookup _ _) Hin i k Hk) as Hrange. cbn beta in Hrange.
    destruct (lookup_lt_is_Some_2 columns (Z.to_nat k)) as [text Htext];
      [unfold size_of in Hrange; lia|].
    rewrite (proj2 (vec_at_Ok columns k text)) by (split; [lia|done]).
    cbn [mbind outcome_bind]. unfold stof_or_throw.
    change (mapM (read_at columns) (k :: drop (S i) parseIndices))
      with (read_at columns k ≫= λ y, mapM (read_at columns) (drop (S i) parseIndices)
                                       ≫= λ ys, Some (y :: ys)).
    unfold read_at at 2. rewrite Htext. cbn [mbind option_bind].
    destruct (stof text) as [value|]; [|done]. cbn [mbind outcome_bind option_bind].
    unfold vec_store. rewrite decide_True by (unfold size_of; lia).
    rewrite Nat2Z.id. cbn [mbind outcome_bind].
    replace (Z.of_nat i + 1) with (Z.of_nat (S i)) by lia.
    rewrite IH by (rewrite ?length_insert; lia).
    destruct (mapM (read_at columns) (drop (S i) parseIndices)) as [values|]; [|done].
    cbn. f_equal.
    rewrite (take_S_r _ _ value) by (apply list_lookup_insert_eq; lia).
    rewrite take_insert_ge by lia. by rewrite <- app_assoc.
Qed.

(** Without a feature column [parseIndices_] is empty and [back()] has
    nothing to return. *)
Lemma DenseParser_ParseFeatures_no_features (base : ExampleParser) (columns : list string) :
  DenseParser_ParseFeatures (mkDenseParser base []) columns = Undefined.
Proof. reflexivity. Qed.

Lemma DenseParser_ctor_Ok (dimension labelCol weightCol nameCol : Z)
    (nonFeature : list bool) (separator : ascii) (labelMapFile : string)
    (p : DenseParser) :
  DenseParser_ctor dimension labelCol weightCol nameCol nonFeature separator labelMapFile
  = Ok p →
  parseIndices_ p = feature_positions nonFeature 0
  ∧ dimension_ (dense_base p) = dimension
  ∧ labelCol_ (dense_base p) = labelCol
  ∧ weightCol_ (dense_base p) = weightCol
  ∧ nameCol_ (dense_base p) = nameCol.
Proof.
  unfold DenseParser_ctor, ExampleParser_ctor. intros H.
  apply bind_Ok in H as (base & Hb & H).
  apply bind_Ok in H as ([] & _ & [= <-]).
  apply bind_Ok in Hb as (m & _ & [= <-]). done.
Qed.

(** X17: a dense parser built for a header with at least one feature column
    (the flags [nonFeature] say where label, weight and name sit, wherever
    that is) keeps the positions of the unmarked columns in header order.
    A row with fewer columns than the largest of them plus one is rejected
    with a [FormatException]; any other row yields [stof] of the columns at
    those positions, in that order, [dimension] values in all, and the
    failure of one [stof] ends the call with its exception. *)
Theorem X17_dense_features_with_feature_column (dimension labelCol weightCol nameCol : Z)
    (nonFeature : list bool) (separator : ascii) (labelMapFile : string)
    (p : DenseParser) (columns : list string) :
  DenseParser_ctor dimension labelCol weightCol nameCol nonFeature separator labelMapFile
  = Ok p →
  size_of nonFeature < 2 ^ 31 →
  dimension = size_of (parseIndices_ p) →
  0 < dimension →
  (∀ k, k ∈ parseIndices_ p ↔ 0 ≤ k ∧ nonFeature !! Z.to_nat k = Some false)
  ∧ StronglySorted Z.lt (parseIndices_ p)
  ∧ ∃ largest,
      last (parseIndices_ p) = Some largest
      ∧ Forall (λ k, k ≤ largest) (parseIndices_ p)
      ∧ (size_of columns < largest + 1 →
         DenseParser_ParseFeatures p columns = Threw FormatException)
      ∧ (largest + 1 ≤ size_of columns →
         match mapM (read_at columns) (parseIndices_ p) with
         | Some values =>
             DenseParser_ParseFeatures p columns = Ok (DenseVector values)
             ∧ size_of values = dimension
         | None => DenseParser_ParseFeatures p columns = Threw stof_error
         end).
Proof.
  intros Hctor Hcols Hdim Hpos.
  apply DenseParser_ctor_Ok in Hctor as (Hidx & Hd & _).
  split.
  { intros k. rewrite Hidx, feature_positions_elem. by rewrite Z.sub_0_r. }
  assert (StronglySorted Z.lt (parseIndices_ p)) as Hsorted
    by (rewrite Hidx; apply feature_positions_sorted).
  split; [done|].
  destruct (last (parseIndices_ p)) as [largest|] eqn:Hlast; cycle 1.
  { apply last_None in Hlast. rewrite Hlast in Hdim. unfold size_of in Hdim.
    cbn in Hdim. lia. }
  exists largest. split; [done|].
  pose proof (sorted_last_largest _ _ Hsorted Hlast) as Hlargest.
  split; [done|].
  assert (0 ≤ largest < 2 ^ 31) as Hrange.
  { apply last_Some_elem_of in Hlast. rewrite Hidx in Hlast.
    apply feature_positions_bounds in Hlast. lia. }
  split.
  - intros Hshort. unfold DenseParser_ParseFeatures, vec_back. rewrite Hlast.
    cbn [mbind outcome_bind]. rewrite to_size_t_small by lia.
    by rewrite bool_decide_eq_false_2 by lia.
  - intros Hlong.
    assert (DenseParser_ParseFeatures p columns
            = match mapM (read_at columns) (parseIndices_ p) with
              | Some values => Ok (DenseVector values)
              | None => Threw stof_error
              end) as ->.
    { unfold DenseParser_ParseFeatures, vec_back. rewrite Hlast.
      cbn [mbind outcome_bind]. rewrite to_size_t_small by lia.
      rewrite bool_decide_eq_true_2 by lia.
      cbn [Check mbind outcome_bind]. rewrite Hd.
      unfold vec_new. rewrite decide_True by lia. cbn [mbind outcome_bind].
      change 0 with (Z.of_nat 0) at 1.
      rewrite dense_loop_run.
      - rewrite drop_0. cbn [take app].
        by destruct (mapM (read_at columns) (parseIndices_ p)).
      - rewrite Hidx. apply Forall_forall. intros k Hk.
        pose proof (proj1 (Forall_forall _ _) Hlargest k) as Hle.
        rewrite Hidx in Hle. specialize (Hle Hk).
        apply feature_positions_bounds in Hk. lia.
      - unfold size_of in Hdim. lia.
      - rewrite length_replicate. unfold size_of in Hdim. lia. }
    destruct (mapM (read_at columns) (parseIndices_ p)) as [values|] eqn:Hm; [|done].
    split; [done|]. apply length_mapM in Hm. unfold size_of in *. lia.
Qed.

End DenseFacts.

(** ** The walk over the header columns (lines 136 to 147) *)

Lemma mark_one_length (c target numCols : Z) (l l' : list bool) :
  mark_one c target numCols l = Ok l' → length l' = length l.
Proof.
  unfold mark_one. case_bool_decide as Hset; [|by intros [= <-]].
  intros H. apply bind_Ok in H as ([] & _ & H).
  apply vec_store_Ok in H as [_ ->]. apply length_insert.
Qed.

Lemma mark_columns_length (cfg : Settings) (numCols : Z) (l : list bool) :
  mark_columns cfg numCols = Ok l → length l = Z.to_nat numCols.
Proof.
  rewrite mark_columns_blocks. intros H.
  apply bind_Ok in H as (l1 & H1%mark_one_length & H).
  apply bind_Ok in H as (l2 & H2%mark_one_length & H3%mark_one_length).
  rewrite length_replicate in H1. congruence.
Qed.

(** The names collected from position [i] on are those of the columns
    whose flag is still clear at the end; flags before [i] are not
    touched. *)
Lemma infer_columns_features (cols : list string) :
  ∀ (i : nat) (labelCol : Z) (isNonFeature : list bool) (featureNames : list string)
    (labelCol' : Z) (isNonFeature' : list bool) (featureNames' : list string),
    infer_columns cols (Z.of_nat i) labelCol isNonFeature featureNames
    = Ok (labelCol', isNonFeature', featureNames') →
    length isNonFeature = (i + length cols)%nat →
    length isNonFeature' = length isNonFeature
    ∧ take i isNonFeature' = take i isNonFeature
    ∧ length featureNames'
      = (length featureNames
         + length (feature_positions (drop i isNonFeature') (Z.of_nat i)))%nat.
Proof.
  induction cols as [|name rest IH];
    intros i lc nf names lc' nf' names' H Hlen; cbn [infer_columns length] in *.
  - injection H as <- <- <-. rewrite drop_ge by lia. cbn. split; [done|]. split; [done|lia].
  - apply bind_Ok in H as (marked & [_ Hi]%vec_at_Ok & H). rewrite Nat2Z.id in Hi.
    replace (Z.of_nat i + 1) with (Z.of_nat (S i)) in H by lia.
    assert (∀ (nf1 : list bool) (b : bool),
              take (S i) nf' = take (S i) nf1 → nf1 !! i = Some b →
              take i nf' = take i nf1
              ∧ drop i nf' = b :: drop (S i) nf') as Hsplit.
    { intros nf1 b Htake Hb. split.
      - replace i with (i `min` S i)%nat at 1 2 by lia.
        rewrite <- !take_take. by rewrite Htake.
      - apply drop_S. rewrite <- (lookup_take_lt nf' (S i) i) by lia.
        rewrite Htake. by rewrite lookup_take_lt by lia. }
    destruct marked.
    + apply IH in H as (Hl & Ht & Hn); [|lia].
      destruct (Hsplit nf true Ht Hi) as [Ht' Hd].
      rewrite Hd. cbn [feature_positions].
      replace (Z.of_nat i + 1) with (Z.of_nat (S i)) by lia. done.
    + case_bool_decide as Hlc.
      * apply bind_Ok in H as (nf1 & [_ ->]%vec_store_Ok & H). rewrite Nat2Z.id in H.
        apply IH in H as (Hl & Ht & Hn); [|rewrite length_insert; lia].
        rewrite length_insert in Hl.
        destruct (Hsplit (<[i:=true]> nf) true Ht) as [Ht' Hd];
          [apply list_lookup_insert_eq; lia|].
        rewrite take_insert_ge in Ht' by lia.
        rewrite Hd. cbn [feature_positions].
        replace (Z.of_nat i + 1) with (Z.of_nat (S i)) by lia. done.
      * apply IH in H as (Hl & Ht & Hn); [|lia].
        destruct (Hsplit nf false Ht Hi) as [Ht' Hd].
        rewrite Hd. cbn [feature_positions length].
        replace (Z.of_nat i + 1) with (Z.of_nat (S i)) by lia.
        rewrite length_app in Hn. cbn in Hn. split; [done|]. split; [done|lia].
Qed.

Section LayoutFacts.
Context `{PF : Platform}.

(** The dimension the loader hands to the dense parser is the number of
    positions that parser records. *)
Lemma TextLoader_layout_dimension (fileStream : ifstream) (cfg : Settings) (lay : Layout) :
  TextLoader_layout fileStream cfg = Ok lay →
  size_of (lay_isNonFeature lay) = lay_numCols lay
  ∧ Dimension (lay_featureNames lay)
    = size_of (feature_positions (lay_isNonFeature lay) 0).
Proof.
  unfold TextLoader_layout. intros H.
  apply bind_Ok in H as ([] & _ & H).
  destruct (read_header _ _ _) as [fs header].
  apply bind_Ok in H as ([] & _ & H).
  apply bind_Ok in H as (nf & Hmark%mark_columns_length & H).
  apply bind_Ok in H as ([[lc' nf'] names'] & Hinfer & [= <-]).
  cbn [lay_isNonFeature lay_numCols lay_featureNames].
  change 0 with (Z.of_nat 0) in Hinfer.
  apply infer_columns_features in Hinfer as (Hl & _ & Hn).
  - rewrite drop_0 in Hn. change (Z.of_nat 0) with 0 in Hn.
    unfold Dimension, size_of in *. cbn [length Nat.add] in Hn. split; lia.
  - unfold size_of in Hmark. lia.
Qed.

End LayoutFacts.

(** ** The probe of the first data row (lines 151 to 163) *)

Section ProbeFacts.
Context `{PF : Platform}.

Lemma TextLoader_probe_eq (cfg : Settings) (lay : Layout) :
  ∃ fs pos,
    TextLoader_probe cfg lay
    = (_ ← Check domain_error
             (bool_decide (size_of (Split (probe_row lay) (separator cfg)) ≤ lay_numCols lay));
       Ok (mkProbe fs pos
             (bool_decide (size_of (Split (probe_row lay) (separator cfg)) < lay_numCols lay)))).
Proof.
  unfold TextLoader_probe, probe_row.
  destruct (tellg (lay_stream lay)) as [fs1 pos]. cbn [fst].
  destruct (getline fs1 EmptyString) as [fs2 line]. cbn [snd]. eauto.
Qed.

Lemma Reset_keeps_parser (errno : Z) (st : State) :
  parser_ (fst (Reset errno st)) = parser_ st.
Proof.
  unfold Reset. destruct (cache_ st); [|done].
  destruct (getline _ _) as [fs2 line]. destruct (failbit fs2); [done|].
  by destruct (parser_Parse _ _ _).
Qed.

Lemma drain_keeps_parser (errno : Z) (fuel : nat) (st : State) (acc : list Example) :
  parser_ (fst (drain errno fuel st acc)) = parser_ st.
Proof.
  revert st acc. induction fuel as [|fuel IH]; intros st acc; [done|].
  cbn [drain]. pose proof (MoveNext_keeps errno st) as (_ & _ & Hp & _).
  destruct (MoveNext errno st) as [st' [[]| |]]; cbn [fst] in *; try done.
  destruct (current st'); [|done]. by rewrite IH.
Qed.

Lemma Cache_keeps_parser (errno : Z) (st : State) :
  parser_ (fst (Cache errno st)) = parser_ st.
Proof.
  unfold Cache. destruct (current st); [|done].
  pose proof (drain_keeps_parser errno (drain_rows st) st [e]) as Hd.
  by destruct (drain _ _ _ _) as [st' [rows| |]].
Qed.

Lemma TextLoader_finish_Ok (errno : Z) (cfg : Settings) (lay : Layout) (pr : Probe)
    (loader : TextLoader) :
  TextLoader_finish errno cfg lay pr = Ok loader →
  isSparse_ loader = probe_isSparse pr
  ∧ is_sparse_parser (parser_ (state_ loader)) = probe_isSparse pr.
Proof.
  unfold TextLoader_finish. intros H.
  apply bind_Ok in H as (parser & Hparser & H).
  assert (is_sparse_parser parser = probe_isSparse pr) as Hkind.
  { destruct (probe_isSparse pr);
      apply bind_Ok in Hparser as (p & _ & [= <-]); done. }
  unfold State_ctor in H.
  pose proof (Reset_keeps_parser errno
    (mkState (probe_stream pr) (probe_dataSeekPosition pr) parser [] Null)) as Hr.
  destruct (Reset errno _) as [state r]. cbn [fst parser_] in Hr.
  apply bind_Ok in H as ([] & _ & H).
  destruct (cache cfg).
  - pose proof (Cache_keeps_parser errno state) as Hc.
    destruct (Cache errno state) as [state' r']. cbn [fst] in Hc.
    apply bind_Ok in H as ([] & _ & [= <-]). cbn. by rewrite Hc, Hr.
  - injection H as <-. cbn. by rewrite Hr.
Qed.

(** C6: the number of columns of the probe row decides the format: equal
    to [numCols] is dense, below is sparse, above ends the load with
    [domain_error]; a loader that is returned carries that classification
    and a parser of the matching class. *)
Theorem C6_probe_classifies (errno : Z) (fileStream : ifstream) (cfg : Settings)
    (lay : Layout) :
  TextLoader_layout fileStream cfg = Ok lay →
  let count := size_of (Split (probe_row lay) (separator cfg)) in
  (count = lay_numCols lay →
     ∃ pr, TextLoader_probe cfg lay = Ok pr ∧ probe_isSparse pr = false)
  ∧ (count < lay_numCols lay →
     ∃ pr, TextLoader_probe cfg lay = Ok pr ∧ probe_isSparse pr = true)
  ∧ (lay_numCols lay < count →
     TextLoader_probe cfg lay = Threw domain_error
     ∧ TextLoader_ctor errno fileStream cfg = Threw domain_error)
  ∧ (∀ loader, TextLoader_ctor errno fileStream cfg = Ok loader →
       isSparse_ loader = bool_decide (count < lay_numCols lay)
       ∧ is_sparse_parser (parser_ (state_ loader)) = bool_decide (count < lay_numCols lay)).
Proof.
  intros Hlay count.
  destruct (TextLoader_probe_eq cfg lay) as (fs & pos & Hprobe).
  fold count in Hprobe.
  split; [|split; [|split]].
  - intros Heq. exists (mkProbe fs pos (bool_decide (count < lay_numCols lay))).
    rewrite Hprobe. rewrite (bool_decide_eq_true_2 (count ≤ _)) by lia.
    split; [done|]. cbn [probe_isSparse]. apply bool_decide_eq_false_2. lia.
  - intros Hlt. exists (mkProbe fs pos (bool_decide (count < lay_numCols lay))).
    rewrite Hprobe. rewrite (bool_decide_eq_true_2 (count ≤ _)) by lia.
    split; [done|]. cbn [probe_isSparse]. by apply bool_decide_eq_true_2.
  - intros Hgt.
    assert (TextLoader_probe cfg lay = Threw domain_error) as Hp.
    { rewrite Hprobe. by rewrite (bool_decide_eq_false_2 (count ≤ _)) by lia. }
    split; [done|]. unfold TextLoader_ctor. rewrite Hlay.
    cbn [mbind outcome_bind]. by rewrite Hp.
  - intros loader Hctor. unfold TextLoader_ctor in Hctor. rewrite Hlay in Hctor.
    cbn [mbind outcome_bind] in Hctor.
    apply bind_Ok in Hctor as (pr & Hpr & Hfin).
    rewrite Hprobe in Hpr. apply bind_Ok in Hpr as ([] & _ & [= <-]).
    by apply TextLoader_finish_Ok in Hfin.
Qed.

End ProbeFacts.

(** ** The label map (lines 172 to 205) *)

Section LabelMapFacts.
Context `{PF : Platform}.

Lemma label_enum_cases (lines : list string) (counter : float) (m : gmap string float) :
  (NoDup lines ∧ Forall (λ key, m !! key = None) lines
   ∧ ∃ m', label_enum lines counter m = Ok m'
           ∧ (∀ i key, lines !! i = Some key →
                m' !! key = Some (Nat.iter i float_incr counter))
           ∧ (∀ key, key ∉ lines → m' !! key = m !! key))
  ∨ (¬ (NoDup lines ∧ Forall (λ key, m !! key = None) lines)
     ∧ label_enum lines counter m = Threw FormatException).
Proof.
  revert counter m. induction lines as [|key rest IH]; intros counter m.
  - left. split; [constructor|]. split; [constructor|].
    exists m. split; [done|]. split; [|done]. intros i key H. by destruct i.
  - cbn [label_enum]. destruct (m !! key) as [old|] eqn:Hkey.
    + right. split.
      * intros [_ [Hm _]%Forall_cons]. congruence.
      * by rewrite bool_decide_eq_false_2 by done.
    + rewrite bool_decide_eq_true_2 by done. cbn [Check mbind outcome_bind].
      destruct (IH (float_incr counter) (<[key := counter]> m))
        as [(Hnd & Hfree & m' & Hrun & Hval & Hother)|[Hbad Hrun]].
      * destruct (decide (key ∈ rest)) as [Hin|Hout].
        { apply (proj1 (Forall_forall _ _) Hfree) in Hin. cbn beta in Hin.
          by rewrite lookup_insert_eq in Hin. }
        left. split; [by constructor|]. split.
        { constructor; [done|]. apply Forall_forall. intros k Hk.
          pose proof (proj1 (Forall_forall _ _) Hfree k Hk) as H. cbn beta in H.
          rewrite lookup_insert_ne in H; [done|]. by intros ->. }
        exists m'. split; [done|]. split.
        -- intros [|i] k Hi.
           ++ injection Hi as <-. rewrite Hother by done. apply lookup_insert_eq.
           ++ rewrite (Hval i k Hi). by rewrite Nat.iter_succ_r.
        -- intros k [Hne Hk]%not_elem_of_cons. rewrite Hother by done.
           by rewrite lookup_insert_ne.
      * right. split; [|done]. intros [Hnd Hfree]. apply Hbad.
        apply NoDup_cons in Hnd as [Hout Hnd]. apply Forall_cons in Hfree as [_ Hfree].
        split; [done|]. apply Forall_forall. intros k Hk.
        rewrite lookup_insert_ne; [by apply (proj1 (Forall_forall _ _) Hfree)|].
        by intros ->.
Qed.

Lemma counter_after_S (i : nat) : counter_after (S i) = float_incr (counter_after i).
Proof. reflexivity. Qed.

(** As long as the increment steps from the float of an integer to the
    float of the next one, the counter holds the float of the number of
    rounds. *)
Lemma counter_after_exact (exact : Z) :
  (∀ n, 0 ≤ n < exact → float_incr (float_of_int n) = float_of_int (n + 1)) →
  ∀ i : nat, Z.of_nat i ≤ exact → counter_after i = float_of_int (Z.of_nat i).
Proof.
  intros Hlaw. induction i as [|i IH]; intros Hi; [done|].
  rewrite counter_after_S, IH by lia. rewrite Hlaw by lia. f_equal. lia.
Qed.

Lemma load_label_map_one_column (labelMapFile first : string) (rest : list string) :
  IsEmptyOrWhiteSpace labelMapFile = false →
  ReadAllLines labelMapFile = first :: rest →
  rest ≠ [] →
  size_of (Split first tab) = 1 →
  load_label_map labelMapFile = label_enum (first :: rest) (float_of_int 0) ∅.
Proof.
  intros Hpath Hread Hrest Hfirst. unfold load_label_map. rewrite Hpath, Hread.
  rewrite bool_decide_eq_true_2
    by (destruct rest; [done | unfold size_of; cbn [length]; lia]).
  cbn [Check mbind outcome_bind]. by rewrite !bool_decide_eq_true_2 by lia.
Qed.

Lemma label_enum_distinct (lines : list string) :
  NoDup lines →
  ∃ m, label_enum lines (float_of_int 0) ∅ = Ok m
       ∧ ∀ (i : nat) (key : string), lines !! i = Some key →
           m !! key = Some (counter_after i).
Proof.
  intros Hnd.
  destruct (label_enum_cases lines (float_of_int 0) ∅)
    as [(_ & _ & m & Hrun & Hval & _)|[Hbad _]]; [by exists m|].
  destruct Hbad. split; [done|]. apply Forall_forall. intros k _. apply lookup_empty.
Qed.

(** C7 (amended): a one-column label-map file with at least two lines.
    With pairwise distinct keys the parser is built and its map sends the
    key on line [i] (counted from 0) to the value of the float counter
    after [i] increments from 0; this is the float value [i] for every [i]
    up to a bound [exact] below which the float increment steps from each
    integer to the next.  With a repeated key the construction ends with a
    [FormatException]. *)
Theorem C7_one_column_label_map (dimension labelCol weightCol nameCol : Z)
    (separator : ascii) (labelMapFile : string) (lines : list string) :
  IsEmptyOrWhiteSpace labelMapFile = false →
  ReadAllLines labelMapFile = lines →
  2 ≤ size_of lines →
  Forall (λ line, size_of (Split line tab) = 1) lines →
  (NoDup lines →
     ∃ p, ExampleParser_ctor dimension labelCol weightCol nameCol separator labelMapFile
          = Ok p
          ∧ (∀ (i : nat) (key : string), lines !! i = Some key →
               labelMap_ p !! key = Some (counter_after i))
          ∧ (∀ exact : Z,
               (∀ n, 0 ≤ n < exact →
                  float_incr (float_of_int n) = float_of_int (n + 1)) →
               ∀ (i : nat) (key : string), Z.of_nat i ≤ exact → lines !! i = Some key →
                 labelMap_ p !! key = Some (float_of_int (Z.of_nat i))))
  ∧ (¬ NoDup lines →
     ExampleParser_ctor dimension labelCol weightCol nameCol separator labelMapFile
     = Threw FormatException).
Proof.
  intros Hpath Hread Hsize Hone.
  assert (load_label_map labelMapFile = label_enum lines (float_of_int 0) ∅) as Hload.
  { destruct lines as [|first rest]; [unfold size_of in Hsize; cbn in Hsize; lia|].
    apply Forall_cons in Hone as [Hfirst _].
    apply load_label_map_one_column; try done.
    intros ->. unfold size_of in Hsize. cbn in Hsize. lia. }
  unfold ExampleParser_ctor. rewrite Hload.
  destruct (label_enum_cases lines (float_of_int 0) ∅)
    as [(Hnd & _ & m' & -> & Hval & _)|[Hbad ->]].
  - split; [|done]. intros _. eexists. split; [done|]. cbn [labelMap_].
    split; [exact Hval|]. intros exact Hlaw i key Hi Hkey.
    rewrite (Hval i key Hkey). f_equal. by apply (counter_after_exact exact).
  - split; [|done]. intros Hnd. destruct Hbad. split; [done|].
    apply Forall_forall. intros k _. apply lookup_empty.
Qed.

End LabelMapFacts.

(** ** ExampleParser::Parse (lines 207 to 212) *)

Section ParseFacts.
Context `{PF : Platform}.

(** C8: on a row that has the label column, a non-empty map resolves the
    label through the map and a key that is not in the map ends the call
    with the exception of [at] (no value is substituted); an empty map
    sends the text through [stof]; the weight is [stof] of the weight
    column when [weightCol_ >= 0] and [1] otherwise.  An example is
    returned as soon as label, weight, features and name resolve. *)
Theorem C8_Parse_label_and_weight (ParseFeatures : list string → outcome Vector)
    (p : ExampleParser) (line text : string) :
  vec_at (Split line (separator_ p)) (labelCol_ p) = Ok text →
  let columns := Split line (separator_ p) in
  (labelMap_ p ≠ ∅ → labelMap_ p !! text = None →
     Parse ParseFeatures p line = Threw map_out_of_range)
  ∧ (∀ ex, Parse ParseFeatures p line = Ok ex →
       (labelMap_ p ≠ ∅ → labelMap_ p !! text = Some (ex_label ex))
       ∧ (labelMap_ p = ∅ → stof text = Some (ex_label ex))
       ∧ (0 ≤ weightCol_ p →
            ∃ w, columns !! Z.to_nat (weightCol_ p) = Some w ∧ stof w = Some (ex_weight ex))
       ∧ (weightCol_ p < 0 → ex_weight ex = float_of_int 1))
  ∧ (∀ label weight features name,
       label_of p text = Some label →
       weight_of p columns = Some weight →
       ParseFeatures columns = Ok features →
       name_of p columns = Some name →
       Parse ParseFeatures p line = Ok (mkExample features label weight name)).
Proof.
  intros Htext columns. subst columns. unfold Parse. cbn zeta.
  set (columns := Split line (separator_ p)) in *. rewrite Htext.
  cbn [mbind outcome_bind]. split; [|split].
  - intros Hmap Hkey. rewrite (bool_decide_eq_false_2 (labelMap_ p = ∅)) by done.
    unfold map_at. by rewrite Hkey.
  - intros ex H.
    apply bind_Ok in H as (label & Hlabel & H).
    apply bind_Ok in H as (weight & Hweight & H).
    apply bind_Ok in H as (name & _ & H).
    apply bind_Ok in H as (features & _ & [= <-]). cbn [ex_label ex_weight].
    split; [|split; [|split]].
    + intros Hmap. rewrite bool_decide_eq_false_2 in Hlabel by done.
      unfold map_at in Hlabel. destruct (labelMap_ p !! text); congruence.
    + intros Hmap. rewrite bool_decide_eq_true_2 in Hlabel by done.
      unfold stof_or_throw in Hlabel. destruct (stof text); congruence.
    + intros Hw. rewrite bool_decide_eq_true_2 in Hweight by done.
      apply bind_Ok in Hweight as (w & [_ Hcol]%vec_at_Ok & Hstof).
      exists w. split; [done|].
      unfold stof_or_throw in Hstof. destruct (stof w); congruence.
    + intros Hw. rewrite bool_decide_eq_false_2 in Hweight by lia. congruence.
  - intros label weight features name Hlabel Hweight Hfeatures Hname.
    unfold label_of in Hlabel. unfold weight_of in Hweight. unfold name_of in Hname.
    assert ((if bool_decide (labelMap_ p = ∅) then stof_or_throw text
             else map_at (labelMap_ p) text) = Ok label) as ->.
    { unfold stof_or_throw, map_at. destruct (bool_decide (labelMap_ p = ∅));
        by rewrite Hlabel. }
    cbn [mbind outcome_bind].
    assert ((if bool_decide (0 ≤ weightCol_ p)
             then vec_at columns (weightCol_ p) ≫= λ text0, stof_or_throw text0
             else Ok (float_of_int 1)) = Ok weight) as ->.
    { destruct (bool_decide (0 ≤ weightCol_ p)) eqn:Hw; [|congruence].
      apply bool_decide_eq_true in Hw.
      destruct (columns !! Z.to_nat (weightCol_ p)) as [w|] eqn:Hcol; [|done].
      rewrite (proj2 (vec_at_Ok columns _ w)) by done.
      cbn [mbind option_bind outcome_bind] in *. unfold stof_or_throw.
      by rewrite Hweight. }
    cbn [mbind outcome_bind].
    assert ((if bool_decide (0 ≤ nameCol_ p)
             then vec_at columns (nameCol_ p) ≫= λ text0, Ok (Some text0)
             else Ok None) = Ok name) as ->.
    { destruct (bool_decide (0 ≤ nameCol_ p)) eqn:Hn; [|congruence].
      apply bool_decide_eq_true in Hn.
      destruct (columns !! Z.to_nat (nameCol_ p)) as [w|] eqn:Hcol; [|done].
      rewrite (proj2 (vec_at_Ok columns _ w)) by done.
      cbn [mbind outcome_bind fmap option_fmap option_map] in *. congruence. }
    cbn [mbind outcome_bind]. by rewrite Hfeatures.
Qed.

(** A row without the label column is read past its end. *)
Lemma Parse_short_row (ParseFeatures : list string → outcome Vector)
    (p : ExampleParser) (line : string) :
  labelCol_ p < 0 ∨ size_of (Split line (separator_ p)) ≤ labelCol_ p →
  Parse ParseFeatures p line = Undefined.
Proof. intros H. unfold Parse. cbn zeta. by rewrite (vec_at_beyond _ _ H). Qed.

End ParseFacts.

(** ** SparseParser::SparseParser (lines 232 to 238) *)

Section SparseCtorFacts.
Context `{PF : Platform}.

Lemma label_enum_defined (lines : list string) (counter : float) (m : gmap string float) :
  label_enum lines counter m ≠ Undefined.
Proof.
  revert counter m. induction lines as [|key rest IH]; intros counter m; [done|].
  cbn [label_enum]. destruct (bool_decide (m !! key = None)); [apply IH | done].
Qed.

Lemma label_pairs_defined (lines : list string) (m : gmap string float) :
  label_pairs lines m ≠ Undefined.
Proof.
  revert m. induction lines as [|line rest IH]; intros m; [done|].
  cbn [label_pairs]. destruct (bool_decide _); [|done]. cbn [Check mbind outcome_bind].
  destruct (Split line tab) as [|key [|text [|]]]; try done.
  destruct (stof text); [apply IH | done].
Qed.

Lemma load_label_map_defined (labelMapFile : string) :
  load_label_map labelMapFile ≠ Undefined.
Proof.
  unfold load_label_map. destruct (IsEmptyOrWhiteSpace labelMapFile); [done|].
  case_bool_decide as Hsize; [|done]. cbn [Check mbind outcome_bind].
  destruct (ReadAllLines labelMapFile) as [|first rest];
    [unfold size_of in Hsize; cbn in Hsize; lia|].
  cbn [mbind outcome_bind]. destruct (bool_decide (_ ≤ 2)); [|done].
  cbn [Check mbind outcome_bind]. destruct (bool_decide _);
    [apply label_enum_defined | apply label_pairs_defined].
Qed.

Lemma SparseParser_ctor_eq (dimension labelCol weightCol nameCol : Z)
    (separator : ascii) (labelMapFile : string) :
  SparseParser_ctor dimension labelCol weightCol nameCol separator labelMapFile
  = (base ← ExampleParser_ctor dimension labelCol weightCol nameCol separator labelMapFile;
     _ ← Check ArgumentException
           (bool_decide (to_size_t labelCol < sparse_offset weightCol nameCol)
            && bool_decide (to_size_t weightCol < sparse_offset weightCol nameCol)
            && bool_decide (to_size_t nameCol < sparse_offset weightCol nameCol));
     Ok (mkSparseParser base (sparse_offset weightCol nameCol))).
Proof.
  assert (∀ c : Z, (if bool_decide (c < 0) then 0 else 1)
                   = (if bool_decide (0 ≤ c) then 1 else 0)) as Hflip
    by (intros c; repeat case_bool_decide; lia).
  unfold SparseParser_ctor, sparse_offset. by rewrite !Hflip.
Qed.

Lemma present_column_check (c offset : Z) :
  int_range c → 0 ≤ c → ¬ c < offset → bool_decide (to_size_t c < offset) = false.
Proof.
  unfold int_range. intros Hr H0 Hc. apply bool_decide_eq_false_2.
  rewrite to_size_t_small; lia.
Qed.

(** C9: the constructor computes the offset as 1, plus 1 for a weight
    column, plus 1 for a name column.  When the label map loads and the
    three columns are configured below the offset, the parser is built and
    holds that offset and the values it was given.  The constructor fails
    whenever one of the configured columns (index at least 0) is not below
    the offset; the loader then fails while it builds the parser, before
    any row is parsed. *)
Theorem C9_SparseParser_ctor (label weight name : Z) (path : string) :
  int_range label → int_range weight → int_range name →
  let offset := sparse_offset weight name in
  (∀ dimension separator p,
     SparseParser_ctor dimension label weight name separator path = Ok p →
     featureColumnOffset_ p = offset)
  ∧ (∀ dimension separator m,
       load_label_map path = Ok m →
       0 ≤ label < offset → 0 ≤ weight < offset → 0 ≤ name < offset →
       SparseParser_ctor dimension label weight name separator path
       = Ok (mkSparseParser (mkExampleParser dimension label weight name separator m)
               offset))
  ∧ ((0 ≤ label ∧ ¬ label < offset)
     ∨ (0 ≤ weight ∧ ¬ weight < offset)
     ∨ (0 ≤ name ∧ ¬ name < offset) →
     (∀ dimension separator,
        fails (SparseParser_ctor dimension label weight name separator path)
        ∧ (is_Ok (load_label_map path) →
           SparseParser_ctor dimension label weight name separator path
           = Threw ArgumentException))
     ∧ (∀ errno cfg lay pr,
          probe_isSparse pr = true →
          lay_labelCol lay = label → weightCol cfg = weight →
          nameCol cfg = name → labelMapFile cfg = path →
          fails (TextLoader_finish errno cfg lay pr))).
Proof.
  intros Hl Hw Hn offset. split.
  { intros dimension separator p H. rewrite SparseParser_ctor_eq in H.
    apply bind_Ok in H as (base & _ & H).
    by apply bind_Ok in H as ([] & _ & [= <-]). }
  split.
  { intros dimension separator m Hload Hlabel Hweight Hname.
    assert (offset ≤ 3) as Hsmall
      by (subst offset; unfold sparse_offset; repeat case_bool_decide; lia).
    rewrite SparseParser_ctor_eq. fold offset. unfold ExampleParser_ctor.
    rewrite Hload. cbn [mbind outcome_bind].
    rewrite !to_size_t_small by lia.
    rewrite (bool_decide_eq_true_2 (label < offset)) by lia.
    rewrite (bool_decide_eq_true_2 (weight < offset)) by lia.
    by rewrite (bool_decide_eq_true_2 (name < offset)) by lia. }
  intros Hbad.
  assert (bool_decide (to_size_t label < offset)
          && bool_decide (to_size_t weight < offset)
          && bool_decide (to_size_t name < offset) = false) as Hcheck.
  { destruct Hbad as [[H0 H]|[[H0 H]|[H0 H]]].
    - by rewrite (present_column_check label offset).
    - rewrite (present_column_check weight offset) by done. by rewrite andb_false_r.
    - rewrite (present_column_check name offset) by done. by rewrite andb_false_r. }
  assert (∀ dimension separator,
            fails (SparseParser_ctor dimension label weight name separator path)
            ∧ (is_Ok (load_label_map path) →
               SparseParser_ctor dimension label weight name separator path
               = Threw ArgumentException)) as Hctor.
  { intros dimension separator. rewrite SparseParser_ctor_eq. fold offset.
    rewrite Hcheck. unfold ExampleParser_ctor.
    pose proof (load_label_map_defined path) as Hdef.
    destruct (load_label_map path) as [m|e|]; [| |done].
    - split; [by exists ArgumentException | done].
    - split; [by exists e | by intros [m ?]]. }
  split; [done|].
  intros errno cfg lay pr Hsparse <- <- <- <-.
  unfold TextLoader_finish. rewrite Hsparse.
  destruct (Hctor (Dimension (lay_featureNames lay)) (separator cfg)) as [[e ->] _].
  by exists e.
Qed.

(** The converted comparison rejects an absent column too: a parser is
    built only when both the weight and the name column are present. *)
Lemma SparseParser_ctor_Ok_present (dimension label weight name : Z)
    (separator : ascii) (path : string) (p : SparseParser) :
  int_range label → int_range weight → int_range name →
  SparseParser_ctor dimension label weight name separator path = Ok p →
  0 ≤ weight ∧ 0 ≤ name ∧ featureColumnOffset_ p = 3.
Proof.
  intros Hl Hw Hn H. apply SparseParser_ctor_offset in H as (Hoff & _ & Hwc & Hnc).
  assert (featureColumnOffset_ p ≤ 3) as Hle
    by (rewrite Hoff; repeat case_bool_decide; lia).
  destruct (decide (weight < 0)) as [Hneg|?].
  { pose proof (to_size_t_negative weight Hw Hneg). lia. }
  destruct (decide (name < 0)) as [Hneg|?].
  { pose proof (to_size_t_negative name Hn Hneg). lia. }
  rewrite Hoff. rewrite !bool_decide_eq_false_2 by lia. lia.
Qed.

End SparseCtorFacts.

Section LoaderSamples.
Import Reference.
#[local] Existing Instance sample_platform.

(** C2 (defect): with label, weight and name configured as columns 0, 1 and
    2 of a four-column header, the weight block sets the flag of the name
    column again and leaves column 1 unmarked, so the weight column becomes
    a feature of the schema; with no name column the same block writes at
    index -1, outside the vector. *)
Theorem C2_weight_block_marks_name_column :
  mark_columns weighted_settings 4 = Ok [true; false; true; false]
  ∧ (∃ lay, TextLoader_layout (open_file (Some weighted_file)) weighted_settings = Ok lay
            ∧ lay_isNonFeature lay = [true; false; true; false]
            ∧ lay_featureNames lay = ["weight"; "f1"])
  ∧ mark_columns (mkSettings tab 0 1 (-1) EmptyString false) 4 = Undefined.
Proof.
  split; [reflexivity|]. split; [|reflexivity].
  eexists. split; [reflexivity|]. split; reflexivity.
Qed.

(** C3 (defect): a streaming cursor over a file with two data rows.  After
    construction the current example is the first row.  The first
    [MoveNext] moves to the second row, the second one finds the end of the
    file and leaves [failbit] set; [seekg] does not clear it, so the
    [getline] of [Reset] fails, the assertion trips and the cursor is still
    on the second row. *)
Theorem C3_Reset_fails_after_exhaustion :
  ∃ loader,
    TextLoader_ctor 0 (open_file (Some two_rows)) streaming_settings = Ok loader
    ∧ cache_ (state_ loader) = []
    ∧ current (state_ loader) = Some first_example
    ∧ snd (MoveNext 0 (state_ loader)) = Ok true
    ∧ snd (MoveNext 0 (MoveNext_times 0 1 (state_ loader))) = Ok false
    ∧ snd (Reset 0 (MoveNext_times 0 2 (state_ loader))) = Threw assertion_failure
    ∧ current (fst (Reset 0 (MoveNext_times 0 2 (state_ loader)))) = Some second_example.
Proof. eexists. split; [reflexivity|]. repeat split; reflexivity. Qed.

(** C5 (defect): a header with no feature column.  With the settings the
    source assigns, the loader takes the only column as the label and
    builds a dense parser with [dimension = 0] and no recorded position.
    [ParseFeatures] then evaluates [parseIndices_.back()] on an empty
    vector, whatever the row is: it neither rejects the row nor returns the
    [dimension] values, and the load ends in that call when the constructor
    of the cursor parses the first row. *)
Theorem C5_no_feature_column_back_of_empty :
  (∃ lay, TextLoader_layout (open_file (Some label_only_file)) default_settings = Ok lay
          ∧ lay_labelCol lay = 0
          ∧ lay_isNonFeature lay = [true]
          ∧ lay_featureNames lay = []
          ∧ probe_row lay = "1")
  ∧ DenseParser_ctor 0 0 (-1) (-1) [true] tab EmptyString = Ok label_only
  ∧ DenseParser_ParseFeatures label_only ["1"] = Undefined
  ∧ DenseParser_ParseFeatures label_only [] = Undefined
  ∧ Parse (DenseParser_ParseFeatures label_only) (dense_base label_only) "1" = Undefined
  ∧ TextLoader_ctor 0 (open_file (Some label_only_file)) default_settings = Undefined
  ∧ TextLoader_ctor 0 (open_file (Some label_only_file)) streaming_settings = Undefined.
Proof.
  split; [eexists; split; [reflexivity|]; repeat split; reflexivity|].
  repeat split; reflexivity.
Qed.

Lemma X17_dense_row_witness :
  DenseParser_ctor 2 0 (-1) (-1) [true; false; false] tab EmptyString = Ok sample_dense
  ∧ DenseParser_ParseFeatures sample_dense ["1"; "0.5"; "0.25"]
    = Ok (DenseVector [literal "0.5"; literal "0.25"])
  ∧ DenseParser_ParseFeatures sample_dense ["1"; "0.5"] = Threw FormatException
  ∧ DenseParser_ParseFeatures sample_dense ["1"; "0.5"; "x"] = Threw stof_error.
Proof.
  assert (DenseParser_ctor 2 0 (-1) (-1) [true; false; false] tab EmptyString = Ok sample_dense)
    as Hctor by reflexivity.
  assert (size_of [true; false; false] < 2 ^ 31) as Hcols by reflexivity.
  assert (2 = size_of (parseIndices_ sample_dense)) as Hdim by reflexivity.
  assert (0 < 2) as Hpos by reflexivity.
  split; [exact Hctor|].
  pose proof (X17_dense_features_with_feature_column 2 0 (-1) (-1) [true; false; false]
                tab EmptyString sample_dense) as Hdense.
  split; [|split].
  - destruct (Hdense ["1"; "0.5"; "0.25"] Hctor Hcols Hdim Hpos)
      as (_ & _ & largest & [= <-] & _ & _ & Hlong).
    apply Hlong. reflexivity.
  - destruct (Hdense ["1"; "0.5"] Hctor Hcols Hdim Hpos)
      as (_ & _ & largest & [= <-] & _ & Hshort & _).
    apply Hshort. reflexivity.
  - destruct (Hdense ["1"; "0.5"; "x"] Hctor Hcols Hdim Hpos)
      as (_ & _ & largest & [= <-] & _ & _ & Hlong).
    apply Hlong. reflexivity.
Defined.

Lemma C6_probe_witness :
  ∃ lay,
    TextLoader_layout (open_file (Some two_rows)) streaming_settings = Ok lay
    ∧ size_of (Split (probe_row lay) tab) = lay_numCols lay
    ∧ ∃ pr, TextLoader_probe streaming_settings lay = Ok pr ∧ probe_isSparse pr = false.
Proof.
  eexists. split; [reflexivity|]. split; [reflexivity|].
  refine (proj1 (C6_probe_classifies 0 (open_file (Some two_rows)) streaming_settings
                   _ eq_refl) _).
  reflexivity.
Defined.

Lemma C8_label_weight_witness :
  vec_at (Split (row ["1"; "0.5"; "0.25"]) tab) 0 = Ok "1"
  ∧ Parse (DenseParser_ParseFeatures sample_dense) (dense_base sample_dense)
      (row ["1"; "0.5"; "0.25"])
    = Ok first_example.
Proof.
  assert (vec_at (Split (row ["1"; "0.5"; "0.25"]) (separator_ (dense_base sample_dense)))
            (labelCol_ (dense_base sample_dense)) = Ok "1") as Htext by reflexivity.
  split; [exact Htext|].
  refine (proj2 (proj2 (C8_Parse_label_and_weight _ _ _ _ Htext)) _ _ _ _ _ _ _ _);
    reflexivity.
Defined.

Lemma C9_offset_witness :
  (int_range 0 ∧ int_range 1 ∧ int_range 2 ∧ int_range 3)
  ∧ sparse_offset 1 2 = 3
  ∧ SparseParser_ctor 5 0 1 2 tab EmptyString = Ok sample_sparse
  ∧ sparse_offset 3 1 = 3
  ∧ fails (SparseParser_ctor 5 0 3 1 tab EmptyString).
Proof.
  assert (int_range 0) as H0 by (unfold int_range; lia).
  assert (int_range 1) as H1 by (unfold int_range; lia).
  assert (int_range 2) as H2 by (unfold int_range; lia).
  assert (int_range 3) as H3 by (unfold int_range; lia).
  split; [done|]. split; [reflexivity|]. split; [|split; [reflexivity|]].
  - refine (proj1 (proj2 (C9_SparseParser_ctor 0 1 2 EmptyString H0 H1 H2)) 5 tab ∅ _ _ _ _).
    + reflexivity.
    + change (sparse_offset 1 2) with 3. lia.
    + change (sparse_offset 1 2) with 3. lia.
    + change (sparse_offset 1 2) with 3. lia.
  - refine (proj1 (proj1 (proj2 (proj2 (C9_SparseParser_ctor 0 3 1 EmptyString H0 H3 H1)) _)
                     5 tab)).
    right. left. split; [lia|]. change (sparse_offset 3 1) with 3. lia.
Defined.

(** C10 (defect): [Parse] reads [columns[labelCol_]] without looking at the
    number of fields.  On the two-field row [1.5 2.25] with the label in
    column 2 the read is outside the row: no exception is thrown.  The
    same happens for the weight column of a three-field row when the
    weight is configured as column 3. *)
Theorem C10_Parse_reads_past_short_row :
  DenseParser_ctor 2 2 (-1) (-1) [false; false; true] tab EmptyString = Ok label_last
  ∧ Split (row ["1.5"; "2.25"]) tab = ["1.5"; "2.25"]
  ∧ Parse (DenseParser_ParseFeatures label_last) (dense_base label_last)
      (row ["1.5"; "2.25"]) = Undefined
  ∧ Parse (DenseParser_ParseFeatures sample_dense) (mkExampleParser 2 0 3 (-1) tab ∅)
      (row ["1"; "0.5"; "0.25"]) = Undefined
  ∧ ∃ loader,
      TextLoader_ctor 0 (open_file (Some short_row_file))
        (mkSettings tab 2 (-1) (-1) EmptyString false)
      = Ok loader
      ∧ snd (MoveNext 0 (state_ loader)) = Undefined.
Proof.
  split; [reflexivity|]. split; [reflexivity|]. split; [reflexivity|].
  split; [reflexivity|]. eexists. split; reflexivity.
Qed.

End LoaderSamples.

(** ** Distinct keys, and the counter in binary32 *)

Lemma bits_inj (p q : positive) : bits p = bits q → p = q.
Proof.
  revert q. induction p as [p IH|p IH|]; intros [q|q|] H; cbn in H;
    try discriminate H; try done.
  - injection H as H. f_equal. by apply IH.
  - injection H as H. by destruct p.
  - injection H as H. f_equal. by apply IH.
  - injection H as H. by destruct q.
Qed.

Lemma key_of_inj (i j : nat) : key_of i = key_of j → i = j.
Proof. intros [= H]. apply bits_inj in H. by apply SuccNat2Pos.inj. Qed.

Lemma many_keys_length (n : nat) : length (many_keys n) = n.
Proof. unfold many_keys. by rewrite length_fmap, length_seq. Qed.

Lemma many_keys_lookup (n i : nat) : (i < n)%nat → many_keys n !! i = Some (key_of i).
Proof. intros Hi. unfold many_keys. by rewrite list_lookup_fmap, lookup_seq_lt. Qed.

Lemma many_keys_NoDup (n : nat) : NoDup (many_keys n).
Proof.
  unfold many_keys. apply NoDup_fmap_2; [|apply NoDup_seq].
  intros i j. apply key_of_inj.
Qed.

Lemma split_chars_one_field (sep : ascii) (chars field : list ascii) :
  sep ∉ chars →
  Reference.split_chars chars sep field = [string_of_list_ascii (rev field ++ chars)].
Proof.
  revert field. induction chars as [|c rest IH]; intros field Hsep.
  - cbn [Reference.split_chars]. by rewrite app_nil_r.
  - apply not_elem_of_cons in Hsep as [Hc Hrest]. cbn [Reference.split_chars].
    rewrite decide_False by done. rewrite IH by done. cbn [rev].
    by rewrite <- app_assoc.
Qed.

Lemma key_of_one_field (i : nat) : Reference.split_on (key_of i) tab = [key_of i].
Proof.
  unfold Reference.split_on. rewrite split_chars_one_field.
  - cbn [rev app]. by rewrite string_of_list_ascii_of_string.
  - unfold key_of. cbn [list_ascii_of_string]. apply not_elem_of_cons. split; [done|].
    induction (Pos.of_succ_nat i) as [p IH|p IH|]; cbn [bits list_ascii_of_string].
    + apply not_elem_of_cons. by split.
    + apply not_elem_of_cons. by split.
    + apply not_elem_of_cons. split; [done | apply not_elem_of_nil].
Qed.

(** In binary32 the integer after [2 ^ 24] is not a float: it converts to
    [2 ^ 24], and so does [2 ^ 24 + 1] as a sum; the integer after that is
    a float of its own. *)
Lemma binary32_odd_converts_down :
  Binary32.of_Z (2 ^ 24 + 1) = Binary32.of_Z (2 ^ 24).
Proof. reflexivity. Qed.

Lemma binary32_counter_stops :
  Binary32.plus_one (Binary32.of_Z (2 ^ 24)) = Binary32.of_Z (2 ^ 24).
Proof. reflexivity. Qed.

Lemma binary32_next_even_differs :
  Binary32.of_Z (2 ^ 24 + 2) ≠ Binary32.of_Z (2 ^ 24).
Proof. intros H. vm_compute in H. discriminate H. Qed.

Section LabelSamples.
Import Reference.

#[local] Existing Instance binary32_platform.

Lemma C7_label_map_witness :
  (IsEmptyOrWhiteSpace "labels" = false
   ∧ ReadAllLines "labels" = ["k0"; "k1"; "k2"]
   ∧ 2 ≤ size_of ["k0"; "k1"; "k2"])
  ∧ (∀ n, 0 ≤ n < 2 → float_incr (float_of_int n) = float_of_int (n + 1))
  ∧ (∃ p, ExampleParser_ctor 2 0 (-1) (-1) tab "labels" = Ok p
          ∧ labelMap_ p !! "k0" = Some (float_of_int 0)
          ∧ labelMap_ p !! "k1" = Some (float_of_int 1)
          ∧ labelMap_ p !! "k2" = Some (float_of_int 2))
  ∧ ExampleParser_ctor 2 0 (-1) (-1) tab "twice" = Threw FormatException.
Proof.
  assert (IsEmptyOrWhiteSpace "labels" = false) as Hpath by reflexivity.
  assert (ReadAllLines "labels" = ["k0"; "k1"; "k2"]) as Hread by reflexivity.
  assert (2 ≤ size_of ["k0"; "k1"; "k2"]) as Hsize by (unfold size_of; cbn; lia).
  assert (Forall (λ line, size_of (Split line tab) = 1) ["k0"; "k1"; "k2"]) as Hone
    by (repeat constructor).
  assert (∀ n, 0 ≤ n < 2 → float_incr (float_of_int n) = float_of_int (n + 1)) as Hlaw.
  { intros n Hn. assert (n = 0 ∨ n = 1) as [-> | ->] by lia; reflexivity. }
  split; [done|]. split; [exact Hlaw|]. split.
  - destruct (proj1 (C7_one_column_label_map 2 0 (-1) (-1) tab "labels" _
                       Hpath Hread Hsize Hone)) as (p & Hp & _ & Hkeys).
    { apply NoDup_ListNoDup. repeat constructor; cbn; intuition discriminate. }
    exists p. split; [exact Hp|].
    split; [exact (Hkeys 2 Hlaw 0%nat "k0" ltac:(lia) eq_refl)|].
    split; [exact (Hkeys 2 Hlaw 1%nat "k1" ltac:(lia) eq_refl)
           | exact (Hkeys 2 Hlaw 2%nat "k2" ltac:(lia) eq_refl)].
  - refine (proj2 (C7_one_column_label_map 2 0 (-1) (-1) tab "twice" ["k0"; "k1"; "k0"]
                     eq_refl eq_refl _ _) _).
    + unfold size_of; cbn; lia.
    + repeat constructor.
    + intros Hnd. apply NoDup_cons in Hnd as [Hout _]. apply Hout.
      apply list_elem_of_In. cbn. tauto.
Defined.

(** C7 (counterexample): a one-column label map of [2 ^ 24 + 3] distinct
    keys, with binary32 floats.  The parser is built, but its map does not
    send every key to the float of its line number: the counter takes the
    same value after [2 ^ 24 + 1] and after [2 ^ 24 + 2] increments, and
    these two line numbers convert to different floats. *)
Lemma C7_long_map_repeats_a_value :
  let lines := many_keys long_map_lines in
  (IsEmptyOrWhiteSpace "long" = false
   ∧ ReadAllLines "long" = lines
   ∧ 2 ≤ size_of lines
   ∧ Forall (λ line, line ≠ EmptyString ∧ size_of (Split line tab) = 1) lines
   ∧ NoDup lines)
  ∧ ∃ p, ExampleParser_ctor 2 0 (-1) (-1) tab "long" = Ok p
         ∧ ¬ (∀ (i : nat) (key : string), lines !! i = Some key →
                labelMap_ p !! key = Some (float_of_int (Z.of_nat i))).
Proof.
  intros lines.
  assert (IsEmptyOrWhiteSpace "long" = false) as Hpath by reflexivity.
  assert (ReadAllLines "long" = lines) as Hread by reflexivity.
  assert (Z.of_nat long_map_lines = 2 ^ 24 + 3) as Hcount
    by (unfold long_map_lines; lia).
  assert (size_of lines = 2 ^ 24 + 3) as Hsize.
  { unfold size_of, lines. rewrite many_keys_length. exact Hcount. }
  assert (Forall (λ line, line ≠ EmptyString ∧ size_of (Split line tab) = 1) lines)
    as Hone.
  { apply Forall_forall. intros line (i & -> & _)%list_elem_of_fmap.
    split; [discriminate|].
    change (Split (key_of i) tab) with (split_on (key_of i) tab).
    by rewrite key_of_one_field. }
  assert (NoDup lines) as Hnd by apply many_keys_NoDup.
  assert (∀ i : nat, Z.of_nat i < 2 ^ 24 + 3 → lines !! i = Some (key_of i)) as Hkeys.
  { intros i Hi. apply many_keys_lookup. lia. }
  clear Hcount. clearbody lines.
  split.
  { split; [exact Hpath|]. split; [exact Hread|]. split; [rewrite Hsize; lia|].
    split; [exact Hone | exact Hnd]. }
  destruct (label_enum_distinct lines Hnd) as (m & Hrun & Hval).
  assert (load_label_map "long" = Ok m) as Hload.
  { rewrite <- Hrun. pose proof (Hkeys 0%nat ltac:(lia)) as Hfirst.
    destruct lines as [|first rest]; [discriminate Hfirst|].
    injection Hfirst as ->.
    apply load_label_map_one_column; [exact Hpath | exact Hread | |].
    - intros ->. unfold size_of in Hsize. cbn [length] in Hsize. lia.
    - change (Split (key_of 0) tab) with (split_on (key_of 0) tab).
      by rewrite key_of_one_field. }
  exists (mkExampleParser 2 0 (-1) (-1) tab m). split.
  { unfold ExampleParser_ctor. rewrite Hload. reflexivity. }
  cbn [labelMap_]. intros Hclaim.
  assert (∃ a : nat, Z.of_nat a = 2 ^ 24 + 1) as [a Ha]
    by (exists (Z.to_nat (2 ^ 24 + 1)); lia).
  pose proof (Hkeys a ltac:(lia)) as Hlow.
  pose proof (Hkeys (S a) ltac:(lia)) as Hhigh.
  pose proof (Hclaim a _ Hlow) as Clow. rewrite (Hval a _ Hlow) in Clow.
  pose proof (Hclaim (S a) _ Hhigh) as Chigh. rewrite (Hval (S a) _ Hhigh) in Chigh.
  apply (inj Some) in Clow. apply (inj Some) in Chigh.
  rewrite counter_after_S, Clow, Ha in Chigh.
  replace (Z.of_nat (S a)) with (2 ^ 24 + 2) in Chigh by lia.
  change (Binary32.plus_one (Binary32.of_Z (2 ^ 24 + 1)) = Binary32.of_Z (2 ^ 24 + 2))
    in Chigh.
  rewrite binary32_odd_converts_down, binary32_counter_stops in Chigh.
  symmetry in Chigh. exact (binary32_next_even_differs Chigh).
Qed.

End LabelSamples.

(** * Further properties *)

(** ** The label map: the two-column form and the failures *)

Section LabelPairsFacts.
Context `{PF : Platform}.

Lemma label_pairs_run (lines : list string) (m : gmap string float) :
  label_pairs lines m
  = match mapM pair_of lines with
    | Some pairs => Ok (insert_pairs m pairs)
    | None => Threw FormatException
    end.
Proof.
  revert m. induction lines as [|line rest IH]; intros m; [done|].
  cbn [label_pairs].
  change (mapM pair_of (line :: rest))
    with (pair_of line ≫= λ kv, mapM pair_of rest ≫= λ kvs, Some (kv :: kvs)).
  assert (pair_of line = match Split line tab with
                         | [key; text] => value ← stof text; Some (key, value)
                         | _ => None
                         end) as -> by done.
  destruct (Split line tab) as [|key [|text [|extra more]]] eqn:Hsplit;
    try (by rewrite bool_decide_eq_false_2 by (unfold size_of; cbn; lia)).
  rewrite bool_decide_eq_true_2 by done. cbn [Check mbind outcome_bind].
  destruct (stof text) as [value|]; [|done]. cbn [mbind option_bind].
  rewrite IH. by destruct (mapM pair_of rest).
Qed.

Lemma insert_pairs_other (pairs : list (string * float)) (m : gmap string float)
    (key : string) :
  Forall (λ kv, kv.1 ≠ key) pairs → insert_pairs m pairs !! key = m !! key.
Proof.
  revert m. induction pairs as [|[k v] rest IH]; intros m Hne; [done|].
  apply Forall_cons in Hne as [Hk Hrest]. cbn in *.
  change (insert_pairs (<[k := v]> m) rest !! key = m !! key).
  rewrite IH by done. by rewrite lookup_insert_ne.
Qed.

(** The last line with a given key decides its value. *)
Lemma insert_pairs_last (pairs : list (string * float)) (m : gmap string float)
    (i : nat) (key : string) (value : float) :
  pairs !! i = Some (key, value) →
  (∀ j kv, (i < j)%nat → pairs !! j = Some kv → kv.1 ≠ key) →
  insert_pairs m pairs !! key = Some value.
Proof.
  revert m i. induction pairs as [|[k v] rest IH]; intros m i Hi Hlater; [by destruct i|].
  change (insert_pairs (<[k := v]> m) rest !! key = Some value).
  destruct i as [|i].
  - injection Hi as -> ->. rewrite insert_pairs_other; [apply lookup_insert_eq|].
    apply Forall_lookup. intros j kv Hj. apply (Hlater (S j) kv); [lia|done].
  - apply (IH _ i); [done|]. intros j kv Hlt Hj. apply (Hlater (S j) kv); [lia|done].
Qed.

Lemma load_label_map_Threw (path : string) (e : exn) :
  load_label_map path = Threw e → e = FormatException.
Proof.
  unfold load_label_map. destruct (IsEmptyOrWhiteSpace path); [discriminate|].
  intros H.
  apply bind_Threw in H as [H|([] & _ & H)]; [by apply Check_Threw in H|].
  apply bind_Threw in H as [H|(tokens & _ & H)]; [by destruct (ReadAllLines path)|].
  apply bind_Threw in H as [H|([] & _ & H)]; [by apply Check_Threw in H|].
  destruct (bool_decide (size_of tokens = 1)).
  - destruct (label_enum_cases (ReadAllLines path) (float_of_int 0) ∅)
      as [(_ & _ & m' & Hrun & _)|[_ Hrun]]; congruence.
  - rewrite label_pairs_run in H. destruct (mapM pair_of _); congruence.
Qed.

(** X1: a label-map file of the two-column form (at least two lines, the
    first with two fields).  When every line has exactly two fields and
    [stof] reads the second one, the parser is built and its map holds, for
    each key, the value of the last line that carries the key: repeated
    keys are not rejected in this form.  Otherwise the construction ends
    with a [FormatException]. *)
Theorem X1_two_column_label_map (dimension labelCol weightCol nameCol : Z)
    (separator : ascii) (path : string) (lines : list string) :
  IsEmptyOrWhiteSpace path = false →
  ReadAllLines path = lines →
  2 ≤ size_of lines →
  (∃ first rest, lines = first :: rest ∧ size_of (Split first tab) = 2) →
  match mapM pair_of lines with
  | Some pairs =>
      ∃ p, ExampleParser_ctor dimension labelCol weightCol nameCol separator path = Ok p
           ∧ labelMap_ p = insert_pairs ∅ pairs
           ∧ (∀ (i : nat) key value,
                pairs !! i = Some (key, value) →
                (∀ j kv, (i < j)%nat → pairs !! j = Some kv → kv.1 ≠ key) →
                labelMap_ p !! key = Some value)
           ∧ (∀ key, Forall (λ kv, kv.1 ≠ key) pairs → labelMap_ p !! key = None)
  | None =>
      ExampleParser_ctor dimension labelCol weightCol nameCol separator path
      = Threw FormatException
  end.
Proof.
  intros Hpath Hread Hsize (first & rest & -> & Hfirst).
  assert (load_label_map path = label_pairs (first :: rest) ∅) as Hload.
  { unfold load_label_map. rewrite Hpath, Hread.
    rewrite bool_decide_eq_true_2 by lia. cbn [Check mbind outcome_bind].
    rewrite (bool_decide_eq_true_2 (_ ≤ 2)) by lia. cbn [Check mbind outcome_bind].
    by rewrite bool_decide_eq_false_2 by lia. }
  unfold ExampleParser_ctor. rewrite Hload, label_pairs_run.
  destruct (mapM pair_of (first :: rest)) as [pairs|]; [|done].
  eexists. split; [done|]. cbn [labelMap_]. split; [done|]. split.
  - intros i key value Hi Hlater. by apply (insert_pairs_last pairs ∅ i).
  - intros key Hne. rewrite insert_pairs_other by done. apply lookup_empty.
Qed.

(** X2: the construction of a parser either succeeds or ends with a
    [FormatException]: it throws nothing else and reads no vector out of
    bounds.  A blank path gives the empty map; a file with fewer than two
    lines, or whose first line has more than two fields, is rejected. *)
Theorem X2_label_map_outcomes (dimension labelCol weightCol nameCol : Z)
    (separator : ascii) (path : string) :
  (is_Ok (ExampleParser_ctor dimension labelCol weightCol nameCol separator path)
   ∨ ExampleParser_ctor dimension labelCol weightCol nameCol separator path
     = Threw FormatException)
  ∧ (IsEmptyOrWhiteSpace path = true →
     ExampleParser_ctor dimension labelCol weightCol nameCol separator path
     = Ok (mkExampleParser dimension labelCol weightCol nameCol separator ∅))
  ∧ (IsEmptyOrWhiteSpace path = false → size_of (ReadAllLines path) < 2 →
     ExampleParser_ctor dimension labelCol weightCol nameCol separator path
     = Threw FormatException)
  ∧ (IsEmptyOrWhiteSpace path = false →
     (∃ first rest, ReadAllLines path = first :: rest ∧ 2 < size_of (Split first tab)) →
     ExampleParser_ctor dimension labelCol weightCol nameCol separator path
     = Threw FormatException).
Proof.
  unfold ExampleParser_ctor. split; [|split; [|split]].
  - pose proof (load_label_map_defined path) as Hdef.
    pose proof (load_label_map_Threw path) as Hthrew.
    destruct (load_label_map path) as [m|e|]; [left; by eexists| |done].
    right. by rewrite (Hthrew e).
  - intros Hblank. unfold load_label_map. by rewrite Hblank.
  - intros Hpath Hshort. unfold load_label_map. rewrite Hpath.
    by rewrite bool_decide_eq_false_2 by lia.
  - intros Hpath (first & rest & Hread & Hwide). unfold load_label_map.
    rewrite Hpath, Hread.
    destruct (bool_decide (1 < size_of (first :: rest))); [|done].
    cbn [Check mbind outcome_bind].
    by rewrite (bool_decide_eq_false_2 (_ ≤ 2)) by lia.
Qed.

End LabelPairsFacts.

(** ** The sparse parser: construction and the checks before the loop *)

Section SparseChecks.
Context `{PF : Platform}.

(** X3: because the column indices are compared with the offset as
    unsigned numbers, a sparse parser is built exactly when the label map
    loads and the label, weight and name columns are all present and are
    the columns 0, 1 and 2 in some order or repetition (each index in
    [0, 3)); the offset of a parser that is built is 3. *)
Theorem X3_SparseParser_ctor_needs_all_columns (dimension label weight name : Z)
    (separator : ascii) (path : string) :
  int_range label → int_range weight → int_range name →
  (is_Ok (SparseParser_ctor dimension label weight name separator path)
   ↔ is_Ok (load_label_map path)
     ∧ 0 ≤ label < 3 ∧ 0 ≤ weight < 3 ∧ 0 ≤ name < 3)
  ∧ (∀ p, SparseParser_ctor dimension label weight name separator path = Ok p →
       featureColumnOffset_ p = 3
       ∧ labelCol_ (sparse_base p) = label
       ∧ weightCol_ (sparse_base p) = weight
       ∧ nameCol_ (sparse_base p) = name
       ∧ dimension_ (sparse_base p) = dimension).
Proof.
  intros Hl Hw Hn.
  assert (∀ p, SparseParser_ctor dimension label weight name separator path = Ok p →
            0 ≤ label < 3 ∧ 0 ≤ weight < 3 ∧ 0 ≤ name < 3
            ∧ featureColumnOffset_ p = 3) as Hinv.
  { intros p H. apply SparseParser_ctor_offset in H as (Hoff & Hlc & Hwc & Hnc).
    assert (featureColumnOffset_ p ≤ 3) as Hle
      by (rewrite Hoff; repeat case_bool_decide; lia).
    assert (∀ c, int_range c → to_size_t c < featureColumnOffset_ p → 0 ≤ c < 3) as Hc.
    { intros c Hr Hlt. destruct (decide (c < 0)) as [Hneg|Hpos].
      - pose proof (to_size_t_negative c Hr Hneg). lia.
      - unfold int_range in Hr. rewrite to_size_t_small in Hlt; lia. }
    pose proof (Hc label Hl Hlc). pose proof (Hc weight Hw Hwc).
    pose proof (Hc name Hn Hnc).
    split; [done|]. split; [done|]. split; [done|].
    rewrite Hoff. rewrite !bool_decide_eq_false_2 by lia. lia. }
  split; [split|].
  - intros [p Hp]. destruct (Hinv p Hp) as (? & ? & ? & _).
    split; [|done]. unfold SparseParser_ctor, ExampleParser_ctor in Hp.
    destruct (load_label_map path) as [m| |]; [by exists m|done..].
  - intros ([m Hm] & Hlr & Hwr & Hnr). unfold int_range in *.
    rewrite SparseParser_ctor_eq. unfold ExampleParser_ctor. rewrite Hm.
    cbn [mbind outcome_bind].
    assert (sparse_offset weight name = 3) as ->
      by (unfold sparse_offset; rewrite !bool_decide_eq_true_2 by lia; lia).
    rewrite !to_size_t_small by lia.
    rewrite !bool_decide_eq_true_2 by lia. by eexists.
  - intros p Hp. destruct (Hinv p Hp) as (_ & _ & _ & Hoff). split; [done|].
    unfold SparseParser_ctor, ExampleParser_ctor in Hp.
    apply bind_Ok in Hp as (base & Hbase & Hp).
    apply bind_Ok in Hbase as (m & _ & [= <-]).
    by apply bind_Ok in Hp as ([] & _ & [= <-]).
Qed.

(** X4: a row with no feature token, with fewer fields than the offset
    (the unsigned subtraction wraps around), or with more feature tokens
    than [dimension_], is rejected with a [FormatException] before any
    token is read. *)
Theorem X4_sparse_token_count_rejected (p : SparseParser) (errno : Z)
    (columns : list string) :
  0 ≤ dimension_ (sparse_base p) < 2 ^ 31 →
  0 ≤ featureColumnOffset_ p < 2 ^ 31 →
  size_of columns < 2 ^ 63 →
  size_of columns ≤ featureColumnOffset_ p
  ∨ featureColumnOffset_ p + dimension_ (sparse_base p) < size_of columns →
  SparseParser_ParseFeatures p errno columns = Threw FormatException.
Proof.
  intros Hdim Hoff Hsize Hbad. unfold SparseParser_ParseFeatures.
  assert (0 ≤ size_of columns) as Hnn by (unfold size_of; lia).
  rewrite (to_size_t_small (dimension_ _)) by lia.
  assert (bool_decide (0 < to_size_t (size_of columns - featureColumnOffset_ p))
          && bool_decide (to_size_t (size_of columns - featureColumnOffset_ p)
                          ≤ dimension_ (sparse_base p)) = false) as ->; [|done].
  destruct (decide (size_of columns < featureColumnOffset_ p)) as [Hwrap|Hfit].
  - rewrite (bool_decide_eq_false_2 (_ ≤ _)); [apply andb_false_r|].
    unfold to_size_t.
    replace (size_of columns - featureColumnOffset_ p)
      with (size_of columns - featureColumnOffset_ p + 2 ^ 64 - 1 * 2 ^ 64) by lia.
    rewrite Zminus_mod, Z_mod_mult, Z.sub_0_r, Z.mod_mod by lia.
    rewrite Z.mod_small; lia.
  - rewrite to_size_t_small by lia.
    destruct Hbad as [Hle|Hmany].
    + by rewrite bool_decide_eq_false_2 by lia.
    + rewrite (bool_decide_eq_false_2 (_ ≤ _)) by lia. apply andb_false_r.
Qed.

(** X5: the call tests [errno] without ever clearing it.  If [errno] is
    not zero when the call starts, a row whose number of feature tokens is
    acceptable is rejected with a [FormatException] at its first token,
    whatever the token is. *)
Theorem X5_sparse_stale_errno (p : SparseParser) (errno : Z) (columns : list string) :
  errno ≠ 0 →
  0 ≤ dimension_ (sparse_base p) < 2 ^ 31 →
  0 ≤ featureColumnOffset_ p < size_of columns →
  size_of columns ≤ featureColumnOffset_ p + dimension_ (sparse_base p) →
  SparseParser_ParseFeatures p errno columns = Threw FormatException.
Proof.
  intros Herrno Hdim Hoff Hcount. unfold SparseParser_ParseFeatures.
  rewrite (to_size_t_small (dimension_ _)) by lia.
  rewrite to_size_t_small by lia.
  rewrite !bool_decide_eq_true_2 by lia. cbn [Check andb mbind outcome_bind].
  destruct (Z.to_nat (size_of columns - featureColumnOffset_ p)) as [|n] eqn:Hn; [lia|].
  cbn [sparse_loop]. unfold sparse_step at 1. cbn [ss_j ss_errno ss_lastIndex].
  destruct (lookup_lt_is_Some_2 columns (Z.to_nat (featureColumnOffset_ p)))
    as [column Hcolumn]; [unfold size_of in Hoff; lia|].
  rewrite (proj2 (vec_at_Ok columns _ column)) by (split; [lia|done]).
  cbn [mbind outcome_bind].
  destruct (strtol column) as [[parsed consumed] range].
  assert (bool_decide ((if range then ERANGE else errno) ≠ 0) = true) as ->
    by (apply bool_decide_eq_true_2; destruct range; [unfold ERANGE; lia | done]).
  done.
Qed.

End SparseChecks.

(** ** The cursor over the rows of a file *)

Lemma scan_line_row (chars rest : list ascii) :
  newline ∉ chars →
  scan_line (chars ++ newline :: rest) = (chars, S (length chars), false).
Proof.
  induction chars as [|c chars IH]; intros Hnl; cbn [scan_line app length].
  - by rewrite decide_True.
  - apply not_elem_of_cons in Hnl as [Hc Hnl].
    rewrite decide_False by done. by rewrite IH.
Qed.

Lemma getline_row (fs : ifstream) (str r : string) (rest : list ascii) :
  good fs = true →
  drop (gpos fs) (contents fs) = list_ascii_of_string r ++ newline :: rest →
  newline ∉ list_ascii_of_string r →
  let fs' := mkStream (contents fs) (gpos fs + S (length (list_ascii_of_string r)))
               false false in
  getline fs str = (fs', r) ∧ drop (gpos fs') (contents fs') = rest.
Proof.
  intros Hg Hdrop Hnl fs'. unfold getline. rewrite Hg, Hdrop, scan_line_row by done.
  rewrite string_of_list_ascii_of_string. split; [done|].
  subst fs'. cbn [gpos contents]. rewrite <- drop_drop, Hdrop.
  change (S (length (list_ascii_of_string r)))
    with (1 + length (list_ascii_of_string r))%nat.
  rewrite Nat.add_comm, <- drop_drop. by rewrite drop_app_length.
Qed.

Lemma getline_end (fs : ifstream) (str : string) :
  good fs = true → drop (gpos fs) (contents fs) = [] →
  getline fs str = (mkStream (contents fs) (gpos fs + 0) true true, EmptyString).
Proof. intros Hg Hdrop. unfold getline. by rewrite Hg, Hdrop. Qed.

Section RowsFacts.
Context `{PF : Platform}.

(** [MoveNext] on a cursor that stands before the row [r]. *)
Lemma MoveNext_row (errno : Z) (st : State) (r : string) (rest : list string) :
  at_rows st (r :: rest) → one_line r →
  ∃ fs, at_rows (with_stream st fs (current_ st)) rest
        ∧ MoveNext errno st
          = match parser_Parse errno (parser_ st) r with
            | Ok e => (with_stream st fs (Heap e), Ok true)
            | Threw x => (with_stream st fs (current_ st), Threw x)
            | Undefined => (with_stream st fs (current_ st), Undefined)
            end.
Proof.
  intros (Hc & Hg & Hdrop) Hline.
  destruct (getline_row (fstream_ st) EmptyString r (Reference.file rest) Hg Hdrop Hline)
    as [Hget Hrest].
  exists (mkStream (contents (fstream_ st))
            (gpos (fstream_ st) + S (length (list_ascii_of_string r))) false false).
  split.
  - split; [exact Hc|]. split; [done|exact Hrest].
  - unfold MoveNext. rewrite Hc, Hget. done.
Qed.

Lemma MoveNext_end (errno : Z) (st : State) :
  at_rows st [] →
  ∃ fs, failbit fs = true
        ∧ MoveNext errno st = (with_stream st fs (current_ st), Ok false).
Proof.
  intros (Hc & Hg & Hdrop).
  exists (mkStream (contents (fstream_ st)) (gpos (fstream_ st) + 0) true true).
  split; [done|]. unfold MoveNext. by rewrite Hc, (getline_end _ _ Hg Hdrop).
Qed.

Lemma MoveNext_failed (errno : Z) (st : State) :
  cache_ st = [] → failbit (fstream_ st) = true →
  ∃ fs, failbit fs = true
        ∧ MoveNext errno st = (with_stream st fs (current_ st), Ok false).
Proof.
  intros Hc Hf.
  exists (mkStream (contents (fstream_ st)) (gpos (fstream_ st))
            (eofbit (fstream_ st)) true).
  split; [done|]. unfold MoveNext, getline.
  by rewrite Hc, (failbit_not_good _ Hf).
Qed.

Lemma current_with_stream_Heap (st : State) (fs : ifstream) (e : Example) :
  current (with_stream st fs (Heap e)) = Some e.
Proof. done. Qed.

Lemma at_rows_current (st : State) (fs : ifstream) (c : cursor) (rows : list string) :
  at_rows (with_stream st fs (current_ st)) rows → at_rows (with_stream st fs c) rows.
Proof. done. Qed.

(** The walk from a cursor on the example [e] that stands before [rows]. *)
Lemma MoveNext_times_rows (errno : Z) (i : nat) :
  ∀ (st : State) (rows : list string) (examples : list Example) (e e' : Example),
    at_rows st rows → Forall one_line rows →
    Forall2 (λ r x, parser_Parse errno (parser_ st) r = Ok x) rows examples →
    current st = Some e →
    (e :: examples) !! i = Some e' →
    current (MoveNext_times errno i st) = Some e'
    ∧ snd (MoveNext errno (MoveNext_times errno i st))
      = Ok (bool_decide (i < length rows)%nat)
    ∧ failbit (fstream_ (MoveNext_times errno i st)) = false
    ∧ cache_ (MoveNext_times errno i st) = [].
Proof.
  induction i as [|i IH]; intros st rows examples e e' Hat Hlines Hparse Hcur Hi.
  - injection Hi as <-. cbn [MoveNext_times]. split; [done|].
    assert (failbit (fstream_ st) = false ∧ cache_ st = []) as [Hf Hc].
    { destruct Hat as (Hc & Hg & _). split; [|done].
      unfold good in Hg. by destruct (eofbit (fstream_ st)), (failbit (fstream_ st)). }
    split; [|done].
    destruct rows as [|r rest].
    + destruct (MoveNext_end errno st Hat) as (fs & _ & ->). done.
    + apply Forall_cons in Hlines as [Hr _].
      apply Forall2_cons_inv_l in Hparse as (x & xs & Hx & _ & ->).
      destruct (MoveNext_row errno st r rest Hat Hr) as (fs & _ & ->).
      rewrite Hx. cbn. by rewrite bool_decide_eq_true_2 by lia.
  - cbn [lookup list_lookup] in Hi.
    destruct examples as [|x xs]; [done|].
    apply Forall2_cons_inv_r in Hparse as (r & rest & Hx & Hrest & ->).
    apply Forall_cons in Hlines as [Hr Hlines].
    destruct (MoveNext_row errno st r rest Hat Hr) as (fs & Hat' & HM).
    rewrite Hx in HM. cbn [MoveNext_times]. rewrite HM. cbn [fst].
    destruct (IH (with_stream st fs (Heap x)) rest xs x e') as (H1 & H2 & H3 & H4);
      try done.
    split; [done|]. split; [|done]. rewrite H2. f_equal.
    apply bool_decide_ext. cbn [length]. lia.
Qed.

(** X6: a streaming cursor built at the first data row of a file whose
    rows all parse visits the rows in file order: after [i] calls of
    [MoveNext] the current example is the parse of row [i], the next call
    returns true exactly when a further row follows, and [Reset] from any
    of these positions returns to the first row. *)
Theorem X6_streaming_rows_in_order (errno : Z) (fs : ifstream) (prefix : list ascii)
    (rows : list string) (examples : list Example) (parser : AnyParser) :
  failbit fs = false →
  contents fs = prefix ++ Reference.file rows →
  Forall one_line rows →
  Forall2 (λ r e, parser_Parse errno parser r = Ok e) rows examples →
  rows ≠ [] →
  ∃ st, State_ctor errno fs (Z.of_nat (length prefix)) parser = (st, Ok tt)
        ∧ ∀ (i : nat) (e : Example), examples !! i = Some e →
            current (MoveNext_times errno i st) = Some e
            ∧ snd (MoveNext errno (MoveNext_times errno i st))
              = Ok (bool_decide (S i < length rows)%nat)
            ∧ current (fst (Reset errno (MoveNext_times errno i st))) = examples !! 0%nat.
Proof.
  intros Hf Hcontents Hlines Hparse Hne.
  destruct rows as [|r rest]; [done|].
  apply Forall2_cons_inv_l in Hparse as (x & xs & Hx & Hrest & ->).
  apply Forall_cons in Hlines as [Hr Hlines].
  set (st0 := mkState fs (Z.of_nat (length prefix)) parser [] Null).
  set (fs1 := mkStream (contents fs) (length prefix) false false).
  assert (at_rows (with_stream st0 fs1 Null) (r :: rest)) as Hat.
  { split; [done|]. split; [done|]. cbn. rewrite Hcontents.
    by rewrite drop_app_length. }
  destruct (getline_row fs1 EmptyString r (Reference.file rest)) as [Hget Hdrop];
    [done| |done|].
  { destruct Hat as (_ & _ & Hd). exact Hd. }
  set (fs2 := mkStream (contents fs1) (gpos fs1 + S (length (list_ascii_of_string r)))
                false false) in *.
  assert (State_ctor errno fs (Z.of_nat (length prefix)) parser
          = (with_stream st0 fs2 (Heap x), Ok tt)) as Hctor.
  { unfold State_ctor, Reset. fold st0. cbn [cache_ st0 fstream_ dataSeekPosition_].
    unfold seekg. rewrite Hf, Nat2Z.id. fold fs1. rewrite Hget.
    cbn [failbit fs2 parser_ st0]. by rewrite Hx. }
  exists (with_stream st0 fs2 (Heap x)). split; [done|].
  intros i e Hi.
  destruct (MoveNext_times_rows errno i (with_stream st0 fs2 (Heap x)) rest xs x e)
    as (H1 & H2 & H3 & _); try done.
  split; [done|]. split.
  - rewrite H2. f_equal. apply bool_decide_ext. cbn [length]. lia.
  - by destruct (Reset_restores_first_row errno fs (Z.of_nat (length prefix)) parser
                   _ i Hctor H3) as [_ ->].
Qed.

(** X7: once [MoveNext] has returned false on a streaming cursor every
    later call returns false as well, and the cursor stays on the example
    it was on. *)
Theorem X7_exhaustion_is_permanent (errno : Z) (st : State) (n : nat) :
  cache_ st = [] →
  snd (MoveNext errno st) = Ok false →
  snd (MoveNext errno (MoveNext_times errno (S n) st)) = Ok false
  ∧ current (MoveNext_times errno (S n) st) = current st.
Proof.
  intros Hc Hfalse.
  assert (∃ fs, failbit fs = true
                ∧ MoveNext errno st = (with_stream st fs (current_ st), Ok false))
    as (fs & Hf & HM).
  { unfold MoveNext in *. rewrite Hc in *.
    destruct (getline (fstream_ st) EmptyString) as [fs line].
    destruct (failbit fs) eqn:Hf; [by exists fs|].
    by destruct (parser_Parse errno (parser_ st) line). }
  cbn [MoveNext_times]. rewrite HM. cbn [fst]. clear Hfalse HM.
  assert (current (with_stream st fs (current_ st)) = current st) as <- by done.
  assert (cache_ (with_stream st fs (current_ st)) = []) as Hc' by done.
  assert (failbit (fstream_ (with_stream st fs (current_ st))) = true) as Hf' by done.
  generalize dependent (with_stream st fs (current_ st)). clear.
  induction n as [|n IH]; intros st Hc Hf.
  - cbn [MoveNext_times].
    destruct (MoveNext_failed errno st Hc Hf) as (fs & _ & ->). done.
  - cbn [MoveNext_times].
    destruct (MoveNext_failed errno st Hc Hf) as (fs & Hf' & ->). cbn [fst].
    destruct (IH (with_stream st fs (current_ st))) as [H1 H2]; done.
Qed.

(** X8: a row that [Parse] rejects is consumed all the same: the call of
    [MoveNext] ends with the exception of [Parse], the cursor stays on the
    example it was on, and the next call goes on with the row after the
    rejected one. *)
Theorem X8_rejected_row_is_skipped (errno : Z) (st : State) (bad next : string)
    (rest : list string) (x : exn) (e : Example) :
  at_rows st (bad :: next :: rest) →
  one_line bad → one_line next →
  parser_Parse errno (parser_ st) bad = Threw x →
  parser_Parse errno (parser_ st) next = Ok e →
  snd (MoveNext errno st) = Threw x
  ∧ current (fst (MoveNext errno st)) = current st
  ∧ snd (MoveNext errno (fst (MoveNext errno st))) = Ok true
  ∧ current (fst (MoveNext errno (fst (MoveNext errno st)))) = Some e.
Proof.
  intros Hat Hbad Hnext Hx He.
  destruct (MoveNext_row errno st bad (next :: rest) Hat Hbad) as (fs & Hat' & ->).
  rewrite Hx. cbn [fst snd]. split; [done|]. split; [done|].
  destruct (MoveNext_row errno _ next rest Hat' Hnext) as (fs' & _ & ->).
  cbn [parser_ with_stream]. rewrite He. done.
Qed.

(** The walk through the cache from the cursor [Cached i]. *)
Lemma MoveNext_times_cached (errno : Z) (k : nat) :
  ∀ (st : State) (i : nat),
    cache_ st ≠ [] → current_ st = Cached (Z.of_nat i) →
    (i + k ≤ length (cache_ st))%nat →
    cache_ (MoveNext_times errno k st) = cache_ st
    ∧ fstream_ (MoveNext_times errno k st) = fstream_ st
    ∧ current_ (MoveNext_times errno k st) = Cached (Z.of_nat (i + k)).
Proof.
  induction k as [|k IH]; intros st i Hne Hcur Hle.
  - cbn [MoveNext_times]. by rewrite Nat.add_0_r.
  - cbn [MoveNext_times].
    destruct (cache_ st) as [|x xs] eqn:Hc; [done|].
    assert (fst (MoveNext errno st)
            = with_stream st (fstream_ st) (Cached (Z.of_nat i + 1))) as ->.
    { unfold MoveNext. rewrite Hc, Hcur.
      by rewrite decide_True by (unfold size_of; lia). }
    destruct (IH (with_stream st (fstream_ st) (Cached (Z.of_nat i + 1))) (S i))
      as (H1 & H2 & H3).
    + cbn. by rewrite Hc.
    + cbn. f_equal. lia.
    + cbn [cache_ with_stream]. rewrite Hc. lia.
    + rewrite H1, H2, H3. cbn [cache_ fstream_ with_stream]. rewrite Hc.
      split; [done|]. split; [done|]. f_equal. lia.
Qed.

(** X9: a cursor with a non-empty cache, after [Reset], walks through the
    cache in order without touching the stream: after [i] calls of
    [MoveNext] the current example is the cached example [i], the next
    call returns true exactly when a further cached example follows, and
    [Reset] returns to the first cached example. *)
Theorem X9_cached_walk (errno : Z) (st : State) (i : nat) (e : Example) :
  cache_ st !! i = Some e →
  let st0 := fst (Reset errno st) in
  current (MoveNext_times errno i st0) = Some e
  ∧ snd (MoveNext errno (MoveNext_times errno i st0))
    = Ok (bool_decide (S i < length (cache_ st))%nat)
  ∧ fstream_ (MoveNext_times errno i st0) = fstream_ st
  ∧ current (fst (Reset errno (MoveNext_times errno i st0))) = cache_ st !! 0%nat.
Proof.
  intros Hi st0. subst st0.
  pose proof (lookup_lt_Some _ _ _ Hi) as Hlt.
  destruct (cache_ st) as [|x xs] eqn:Hc; [done|].
  assert (fst (Reset errno st) = with_stream st (fstream_ st) (Cached 0)) as ->
    by (unfold Reset; by rewrite Hc).
  set (st0 := with_stream st (fstream_ st) (Cached 0)).
  assert (cache_ st0 = x :: xs) as Hc0 by done.
  destruct (MoveNext_times_cached errno i st0 0) as (H1 & H2 & H3).
  { by rewrite Hc0. }
  { done. }
  { rewrite Hc0. lia. }
  rewrite Hc0 in H1. change (fstream_ st0) with (fstream_ st) in H2.
  split; [|split; [|split]].
  - unfold current. rewrite H3, H1. rewrite decide_True by lia.
    by rewrite Nat2Z.id.
  - unfold MoveNext. rewrite H1, H3.
    rewrite decide_True by (unfold size_of; cbn [length] in *; lia).
    cbn [snd]. f_equal. apply bool_decide_ext. unfold size_of. cbn [length]. lia.
  - done.
  - unfold Reset. rewrite H1. cbn. by rewrite H1.
Qed.

End RowsFacts.

(** ** The loader: header, column roles and first row *)

Lemma scan_line_no_newline (chars : list ascii) :
  newline ∉ chars → scan_line chars = (chars, length chars, true).
Proof.
  induction chars as [|c chars IH]; intros Hnl; cbn [scan_line length]; [done|].
  apply not_elem_of_cons in Hnl as [Hc Hnl].
  rewrite decide_False by done. by rewrite IH.
Qed.

Lemma file_length (rows : list string) :
  (length rows ≤ length (Reference.file rows))%nat.
Proof.
  induction rows as [|r rest IH]; cbn [Reference.file length]; [done|].
  rewrite length_app. cbn [length]. lia.
Qed.

Lemma file_app (rows rows' : list string) :
  Reference.file (rows ++ rows') = Reference.file rows ++ Reference.file rows'.
Proof.
  induction rows as [|r rest IH]; cbn [Reference.file app]; [done|].
  rewrite IH. by rewrite <- app_assoc.
Qed.

Lemma getline_contents (fs : ifstream) (str : string) :
  contents (fst (getline fs str)) = contents fs.
Proof.
  unfold getline. destruct (good fs); [|done].
  by destruct (scan_line _) as [[l n] e].
Qed.

Lemma good_stream (fs : ifstream) :
  good fs = true → fs = mkStream (contents fs) (gpos fs) false false.
Proof. destruct fs as [c g [] []]; cbn; done. Qed.

Section HeaderFacts.
Context `{PF : Platform}.

(** X10: a file that cannot be opened, and a file that holds no newline
    character (the empty file, or a header that is not ended by a
    newline), end the load with the exception of [CheckArg]. *)
Theorem X10_no_complete_header_line (errno : Z) (cfg : Settings) (bytes : list ascii) :
  TextLoader_ctor errno (open_file None) cfg = Threw ArgumentException
  ∧ (newline ∉ bytes →
     TextLoader_ctor errno (open_file (Some bytes)) cfg = Threw ArgumentException).
Proof.
  split; [done|]. intros Hnl.
  unfold TextLoader_ctor, TextLoader_layout.
  cbn [open_file good eofbit failbit negb andb Check mbind outcome_bind].
  unfold header_rounds. cbn [read_header contents gpos].
  cbn [good eofbit failbit negb andb String.length bool_decide orb].
  rewrite bool_decide_eq_true_2 by done. cbn [orb].
  unfold getline at 1. cbn [good eofbit failbit negb andb gpos contents drop].
  rewrite scan_line_no_newline by done.
  cbn [good eofbit failbit negb andb]. done.
Qed.

Lemma wanted_true (header : string) :
  String.length header = O ∨ starts_with header "//" = true →
  bool_decide (String.length header = O) || starts_with header "//" = true.
Proof.
  intros [Hblank|Hcomment].
  - by rewrite bool_decide_eq_true_2 by done.
  - rewrite Hcomment. apply orb_true_r.
Qed.

Lemma read_header_skips (h : string) (rest : list ascii) (skipped : list string) :
  ∀ (fuel : nat) (fs : ifstream) (header : string),
    good fs = true →
    String.length header = O ∨ starts_with header "//" = true →
    drop (gpos fs) (contents fs) = Reference.file (skipped ++ [h]) ++ rest →
    Forall one_line skipped → one_line h →
    Forall skipped_line skipped → header_line h →
    (length skipped + 1 < fuel)%nat →
    read_header fuel fs header
    = (mkStream (contents fs)
         (gpos fs + length (Reference.file (skipped ++ [h]))) false false,
       Trim h).
Proof.
  induction skipped as [|l more IH];
    intros fuel fs header Hg Hwanted Hdrop Hlines Hh Hskip Hheader Hfuel.
  - destruct fuel as [|[|fuel]]; [cbn in Hfuel; lia..|].
    cbn [read_header]. rewrite Hg.
    rewrite (wanted_true header Hwanted).
    cbn [andb].
    destruct (getline_row fs header h rest Hg) as [-> _]; [|done|].
    { rewrite Hdrop. cbn [app Reference.file]. by rewrite <- app_assoc. }
    destruct Hheader as [Hlen Hcomment].
    cbn [good eofbit failbit negb andb]. rewrite Hcomment.
    rewrite bool_decide_eq_false_2 by done. cbn [orb].
    do 2 f_equal. cbn [app Reference.file]. rewrite length_app. cbn [length]. lia.
  - destruct fuel as [|fuel]; [cbn in Hfuel; lia|].
    cbn [read_header]. rewrite Hg.
    rewrite (wanted_true header Hwanted).
    cbn [andb].
    apply Forall_cons in Hlines as [Hl Hlines].
    apply Forall_cons in Hskip as [Hsl Hskip].
    destruct (getline_row fs header l (Reference.file (more ++ [h]) ++ rest) Hg)
      as [-> Hdrop']; [|done|].
    { rewrite Hdrop. cbn [app Reference.file]. by rewrite <- app_assoc. }
    rewrite (IH fuel); try done.
    + cbn [contents gpos]. do 2 f_equal. cbn [app Reference.file].
      rewrite !length_app. cbn [length]. lia.
    + cbn in Hfuel. lia.
Qed.

Lemma TextLoader_layout_Ok (fileStream : ifstream) (cfg : Settings) (lay : Layout) :
  TextLoader_layout fileStream cfg = Ok lay →
  let found := read_header (header_rounds fileStream) fileStream EmptyString in
  good fileStream = true
  ∧ good (lay_stream lay) = true
  ∧ lay_stream lay = fst found
  ∧ lay_numCols lay = size_of (Split (snd found) (separator cfg))
  ∧ ∃ flags,
      mark_columns cfg (lay_numCols lay) = Ok flags
      ∧ infer_columns (Split (snd found) (separator cfg)) 0 (labelCol cfg) flags []
        = Ok (lay_labelCol lay, lay_isNonFeature lay, lay_featureNames lay).
Proof.
  intros H. cbn zeta. unfold TextLoader_layout in H.
  apply bind_Ok in H as ([] & Hg%Check_Ok & H).
  destruct (read_header _ _ _) as [fs header].
  apply bind_Ok in H as ([] & Hg'%Check_Ok & H).
  apply bind_Ok in H as (flags & Hmark & H).
  apply bind_Ok in H as ([[lc nf] names] & Hinfer & [= <-]).
  cbn. split; [done|]. split; [done|]. split; [done|]. split; [done|].
  by exists flags.
Qed.

(** X11: the loader passes over the leading lines that are blank or
    start with [//] once trimmed and takes the first other line as the
    header: the columns are those of the trimmed header line and the
    stream stands right behind that line, where the data rows begin. *)
Theorem X11_header_after_comments (cfg : Settings) (skipped : list string) (h : string)
    (rest : list ascii) (lay : Layout) :
  Forall one_line skipped → one_line h →
  Forall skipped_line skipped → header_line h →
  TextLoader_layout (open_file (Some (Reference.file (skipped ++ [h]) ++ rest))) cfg
  = Ok lay →
  lay_numCols lay = size_of (Split (Trim h) (separator cfg))
  ∧ lay_stream lay
    = mkStream (Reference.file (skipped ++ [h]) ++ rest)
        (length (Reference.file (skipped ++ [h]))) false false
  ∧ drop (gpos (lay_stream lay)) (contents (lay_stream lay)) = rest.
Proof.
  intros Hlines Hh Hskip Hheader Hlay.
  apply TextLoader_layout_Ok in Hlay as (_ & _ & Hstream & Hcols & _).
  cbn zeta in *.
  set (fs := open_file (Some (Reference.file (skipped ++ [h]) ++ rest))) in *.
  assert (read_header (header_rounds fs) fs EmptyString
          = (mkStream (contents fs) (gpos fs + length (Reference.file (skipped ++ [h])))
               false false, Trim h)) as Hread.
  { apply (read_header_skips h rest skipped); try done.
    - by left.
    - unfold header_rounds. subst fs. cbn [open_file contents gpos].
      pose proof (file_length (skipped ++ [h])) as Hlen.
      rewrite !length_app in *. cbn [length] in *. lia. }
  rewrite Hread in Hstream, Hcols. subst fs.
  cbn [fst snd open_file contents gpos Nat.add] in *.
  split; [done|]. split; [done|]. rewrite Hstream. cbn [gpos contents].
  by rewrite drop_app_length.
Qed.

End HeaderFacts.

(** *** The roles of the columns *)

Lemma infer_columns_labelled (labelCol : Z) (cols : list string) :
  labelCol ≠ -1 →
  ∀ (i : nat) (flags : list bool) (names : list string),
    length flags = (i + length cols)%nat →
    infer_columns cols (Z.of_nat i) labelCol flags names
    = Ok (labelCol, flags, names ++ unmarked cols (drop i flags)).
Proof.
  intros Hlabel. induction cols as [|name rest IH]; intros i flags names Hlen.
  - cbn [infer_columns unmarked]. by rewrite app_nil_r.
  - cbn [infer_columns length] in *.
    destruct (lookup_lt_is_Some_2 flags i) as [b Hb]; [lia|].
    rewrite (vec_at_nat _ _ _ Hb). cbn [mbind outcome_bind].
    rewrite (drop_S _ _ _ Hb). cbn [unmarked].
    replace (Z.of_nat i + 1) with (Z.of_nat (S i)) by lia.
    destruct b.
    + by rewrite IH by lia.
    + rewrite bool_decide_eq_false_2 by done. rewrite IH by lia.
      by rewrite <- app_assoc.
Qed.

Lemma infer_columns_unlabelled (cols : list string) :
  ∀ (i : nat) (flags : list bool) (names : list string),
    length flags = (i + length cols)%nat →
    infer_columns cols (Z.of_nat i) (-1) flags names
    = match first_clear (drop i flags) (Z.of_nat i) with
      | Some k =>
          Ok (k, <[Z.to_nat k := true]> flags,
              names ++ unmarked cols (drop i (<[Z.to_nat k := true]> flags)))
      | None => Ok (-1, flags, names)
      end.
Proof.
  induction cols as [|name rest IH]; intros i flags names Hlen.
  - cbn [infer_columns length] in *. by rewrite drop_ge by lia.
  - cbn [infer_columns length] in *.
    destruct (lookup_lt_is_Some_2 flags i) as [b Hb]; [lia|].
    rewrite (vec_at_nat _ _ _ Hb). cbn [mbind outcome_bind].
    rewrite (drop_S _ _ _ Hb). cbn [first_clear].
    replace (Z.of_nat i + 1) with (Z.of_nat (S i)) by lia.
    destruct b.
    + rewrite IH by lia.
      destruct (first_clear (drop (S i) flags) (Z.of_nat (S i))) as [k|]; [|done].
      assert (<[Z.to_nat k := true]> flags !! i = Some true) as Hi.
      { destruct (decide (Z.to_nat k = i)) as [->|Hne].
        - apply list_lookup_insert_eq. lia.
        - by rewrite list_lookup_insert_ne. }
      by rewrite (drop_S _ _ _ Hi).
    + rewrite bool_decide_eq_true_2 by done.
      unfold vec_store. rewrite decide_True by (unfold size_of; lia).
      cbn [mbind outcome_bind]. rewrite Nat2Z.id.
      rewrite infer_columns_labelled by (rewrite ?length_insert; lia).
      assert (<[i := true]> flags !! i = Some true) as Hi
        by (apply list_lookup_insert_eq; lia).
      by rewrite (drop_S _ _ _ Hi).
Qed.

(** Without a configured label the walk starts with every flag still to be
    looked at. *)
Lemma infer_columns_unlabelled_start (cols : list string) (flags : list bool) :
  length flags = length cols →
  infer_columns cols 0 (-1) flags []
  = match first_clear flags 0 with
    | Some k =>
        Ok (k, <[Z.to_nat k := true]> flags,
            unmarked cols (<[Z.to_nat k := true]> flags))
    | None => Ok (-1, flags, [])
    end.
Proof.
  intros Hlen. change 0 with (Z.of_nat 0).
  rewrite infer_columns_unlabelled by done. by rewrite !drop_0.
Qed.

(** X12: the walk over the header columns never fails.  With a label
    column configured the flags are left as they are; without one the
    first column whose flag is clear becomes the label and is flagged.  In
    both cases the feature names are the names of the columns whose flag
    is clear afterwards, in header order. *)
Theorem X12_infer_columns (cols : list string) (labelCol : Z) (flags : list bool) :
  length flags = length cols →
  infer_columns cols 0 labelCol flags []
  = if bool_decide (labelCol = -1) then
      match first_clear flags 0 with
      | Some k =>
          Ok (k, <[Z.to_nat k := true]> flags,
              unmarked cols (<[Z.to_nat k := true]> flags))
      | None => Ok (-1, flags, [])
      end
    else Ok (labelCol, flags, unmarked cols flags).
Proof.
  intros Hlen. case_bool_decide as Hlabel.
  - subst labelCol. by apply infer_columns_unlabelled_start.
  - change 0 with (Z.of_nat 0). rewrite infer_columns_labelled by done.
    by rewrite drop_0.
Qed.

(** X13: with no weight column configured, the explicitly designated
    columns are accepted exactly when the label and the name index are
    each absent (-1) or a position of the header; the flags then mark
    these positions and no other.  Any other index ends the load with
    [domain_error]. *)
Theorem X13_mark_label_and_name (cfg : Settings) (numCols : Z) :
  weightCol cfg = -1 →
  int_range (labelCol cfg) → int_range (nameCol cfg) → 0 ≤ numCols →
  (column_ok (labelCol cfg) numCols ∧ column_ok (nameCol cfg) numCols →
   ∃ flags, mark_columns cfg numCols = Ok flags
            ∧ size_of flags = numCols
            ∧ ∀ k : nat, flags !! k = Some true
                ↔ Z.of_nat k < numCols
                  ∧ (Z.of_nat k = labelCol cfg ∨ Z.of_nat k = nameCol cfg))
  ∧ (¬ (column_ok (labelCol cfg) numCols ∧ column_ok (nameCol cfg) numCols) →
     mark_columns cfg numCols = Threw domain_error).
Proof.
  intros Hweight Hl Hn Hcols. rewrite mark_columns_blocks, Hweight.
  assert (∀ c l, int_range c → ¬ column_ok c numCols →
            mark_one c c numCols l = Threw domain_error) as Hbad.
  { intros c l Hc Hno. unfold mark_one, column_ok in *.
    rewrite bool_decide_eq_true_2 by lia.
    destruct (bool_decide (0 ≤ c) && bool_decide (to_size_t c < numCols)) eqn:Hchk;
      [|done].
    apply column_check in Hchk; [lia|done]. }
  assert (∀ flags, mark_one (-1) (nameCol cfg) numCols flags = Ok flags) as Hskip by done.
  set (clear := replicate (Z.to_nat numCols) false).
  assert (size_of clear = numCols) as Hsize by (by apply size_of_replicate).
  assert (∀ k : nat, clear !! k = Some true ↔ False) as Hclear.
  { intros k. subst clear. rewrite lookup_replicate. split; [by intros [[=] _] | done]. }
  split.
  - intros [Hlok Hnok].
    destruct (mark_one_own (labelCol cfg) numCols clear Hl Hsize)
      as [E|(l1 & -> & Hs1 & H1)].
    { destruct Hlok as [Hlok|Hlok]; unfold mark_one in E.
      - by rewrite bool_decide_eq_false_2 in E by lia.
      - rewrite bool_decide_eq_true_2 in E by lia.
        rewrite (proj2 (column_check _ _ Hl)) in E by done.
        unfold vec_store in E. by rewrite decide_True in E by lia. }
    cbn [mbind outcome_bind].
    destruct (mark_one_own (nameCol cfg) numCols l1 Hn Hs1)
      as [E|(l2 & -> & Hs2 & H2)].
    { destruct Hnok as [Hnok|Hnok]; unfold mark_one in E.
      - by rewrite bool_decide_eq_false_2 in E by lia.
      - rewrite bool_decide_eq_true_2 in E by lia.
        rewrite (proj2 (column_check _ _ Hn)) in E by done.
        unfold vec_store in E. by rewrite decide_True in E by lia. }
    cbn [mbind outcome_bind]. rewrite Hskip. exists l2.
    split; [done|]. split; [done|]. intros k.
    assert (l1 !! k = Some true ↔ Z.of_nat k < numCols ∧ Z.of_nat k = labelCol cfg)
      as Hl1.
    { destruct H1 as [[Hno ->]|[Hin ->]].
      - rewrite Hclear. lia.
      - rewrite list_lookup_insert_Some, Hclear. unfold size_of in Hsize. lia. }
    destruct H2 as [[Hno ->]|[Hin ->]].
    + rewrite Hl1. lia.
    + rewrite list_lookup_insert_Some, Hl1. unfold size_of in Hs1. lia.
  - intros Hno.
    destruct (decide (column_ok (labelCol cfg) numCols)) as [Hlok|Hlbad].
    + destruct (mark_one_own (labelCol cfg) numCols clear Hl Hsize)
        as [->|(l1 & -> & Hs1 & _)]; [done|].
      cbn [mbind outcome_bind]. rewrite Hbad; [done..|]. tauto.
    + by rewrite Hbad.
Qed.

(** *** The first example and the rows of a dense file *)

Section FirstRowFacts.
Context `{PF : Platform}.

(** X14: a loader that is returned without caching stands on the parse of
    the probe row: the row whose number of columns decided between dense
    and sparse is the first example, and the position kept for [Reset] is
    the position right behind the header. *)
Theorem X14_first_example_is_probe_row (errno : Z) (fileStream : ifstream)
    (cfg : Settings) (lay : Layout) (loader : TextLoader) :
  TextLoader_layout fileStream cfg = Ok lay →
  Z.of_nat (gpos (lay_stream lay)) < 2 ^ 64 →
  cache cfg = false →
  TextLoader_ctor errno fileStream cfg = Ok loader →
  dataSeekPosition_ (state_ loader) = Z.of_nat (gpos (lay_stream lay))
  ∧ schema_ loader = lay_featureNames lay
  ∧ ∃ e, parser_Parse errno (parser_ (state_ loader)) (probe_row lay) = Ok e
         ∧ current (state_ loader) = Some e.
Proof.
  intros Hlay Hpos Hcache Hctor.
  pose proof (TextLoader_layout_Ok _ _ _ Hlay) as (_ & Hgood & _).
  unfold TextLoader_ctor in Hctor. rewrite Hlay in Hctor.
  cbn [mbind outcome_bind] in Hctor.
  apply bind_Ok in Hctor as (pr & Hprobe & Hfinish).
  unfold TextLoader_probe, probe_row, tellg in *. rewrite Hgood in *.
  cbn [fst] in *.
  pose proof (getline_contents (lay_stream lay) EmptyString) as Hcontents.
  destruct (getline (lay_stream lay) EmptyString) as [fs2 line] eqn:Hget.
  cbn [fst snd] in *.
  apply bind_Ok in Hprobe as ([] & _ & [= <-]).
  unfold TextLoader_finish in Hfinish. cbn [probe_isSparse probe_stream
    probe_dataSeekPosition] in Hfinish.
  apply bind_Ok in Hfinish as (parser & _ & Hfinish).
  destruct (State_ctor errno fs2 _ parser) as [state r] eqn:Hstate.
  apply bind_Ok in Hfinish as ([] & -> & Hfinish).
  rewrite Hcache in Hfinish. injection Hfinish as <-. cbn [state_ schema_].
  apply State_ctor_Ok in Hstate as (_ & _ & Hc & Hseek & Hp & _ & e & He & Hcur).
  rewrite to_size_t_small in Hseek by lia.
  split; [done|]. split; [done|]. exists e. split; [|done].
  rewrite Hp. unfold first_row in He. rewrite Hc, Hseek, Hcontents, Nat2Z.id in He.
  rewrite <- (good_stream _ Hgood) in He. by rewrite Hget in He.
Qed.

End FirstRowFacts.

Lemma first_clear_replicate (n : nat) (i : Z) :
  first_clear (replicate (S n) false) i = Some i.
Proof. done. Qed.

Lemma unmarked_clear (names : list string) :
  unmarked names (replicate (length names) false) = names.
Proof. induction names as [|name rest IH]; cbn; [done|]. by rewrite IH. Qed.

Lemma last_feature_positions_clear (n : nat) (i : Z) :
  last (feature_positions (replicate (S n) false) i) = Some (i + Z.of_nat n).
Proof.
  revert i. induction n as [|n IH]; intros i.
  - cbn. f_equal. lia.
  - change (replicate (S (S n)) false) with (false :: replicate (S n) false).
    cbn [feature_positions]. specialize (IH (i + 1)).
    destruct (feature_positions (replicate (S n) false) (i + 1)) as [|k ks] eqn:Hk;
      [done|].
    rewrite last_cons_cons, IH. f_equal. lia.
Qed.

Lemma length_feature_positions_clear (n : nat) (i : Z) :
  length (feature_positions (replicate n false) i) = n.
Proof. revert i. induction n as [|n IH]; intros i; cbn; [done|]. by rewrite IH. Qed.

Section DefaultDense.
Context `{PF : Platform}.

(** The columns behind [before], read through the positions of a run of
    clear flags, are [stof] of the first columns of [fields]. *)
Lemma read_at_clear (n : nat) :
  ∀ (before fields : list string),
    (n ≤ length fields)%nat →
    mapM (read_at (before ++ fields))
         (feature_positions (replicate n false) (Z.of_nat (length before)))
    = mapM stof (take n fields).
Proof.
  induction n as [|n IH]; intros before fields Hn; [done|].
  destruct fields as [|x fields]; [cbn in Hn; lia|].
  change (replicate (S n) false) with (false :: replicate n false).
  cbn [feature_positions take].
  change (mapM ?f (?a :: ?l)) with (f a ≫= λ y, mapM f l ≫= λ ys, Some (y :: ys)).
  assert (read_at (before ++ x :: fields) (Z.of_nat (length before)) = stof x) as ->
    by (unfold read_at; by rewrite Nat2Z.id, list_lookup_middle by done).
  replace (Z.of_nat (length before) + 1) with (Z.of_nat (length (before ++ [x])))
    by (rewrite length_app; cbn; lia).
  rewrite (cons_middle x before fields), app_assoc.
  rewrite IH by (cbn in Hn; lia). done.
Qed.

(** X15: with no label, weight or name column configured and a header of
    at least one column, the loader takes column 0 as the label and the
    other columns, in header order, as the features. *)
Theorem X15_default_roles (fileStream : ifstream) (cfg : Settings) (lay : Layout) :
  labelCol cfg = -1 → weightCol cfg = -1 → nameCol cfg = -1 →
  TextLoader_layout fileStream cfg = Ok lay →
  0 < lay_numCols lay →
  lay_labelCol lay = 0
  ∧ lay_isNonFeature lay = true :: replicate (Z.to_nat (lay_numCols lay - 1)) false
  ∧ lay_featureNames lay
    = tail (Split (snd (read_header (header_rounds fileStream) fileStream EmptyString))
              (separator cfg)).
Proof.
  intros Hl Hw Hn Hlay Hcols.
  apply TextLoader_layout_Ok in Hlay as (_ & _ & _ & Hnum & flags & Hmark & Hinfer).
  cbn zeta in *.
  set (cols := Split _ (separator cfg)) in *.
  assert (flags = replicate (Z.to_nat (lay_numCols lay)) false) as ->.
  { assert (∀ target l, mark_one (-1) target (lay_numCols lay) l = Ok l) as Hskip
      by done.
    rewrite mark_columns_blocks, Hl, Hw, Hn in Hmark.
    do 3 (rewrite ?Hskip in Hmark; cbn [mbind outcome_bind] in Hmark).
    congruence. }
  rewrite Hl in Hinfer.
  rewrite infer_columns_unlabelled_start in Hinfer
    by (rewrite length_replicate, Hnum; unfold size_of; lia).
  destruct cols as [|first rest] eqn:Hc;
    [rewrite Hnum in Hcols; unfold size_of in Hcols; cbn in Hcols; lia|].
  assert (Z.to_nat (lay_numCols lay) = S (length rest)) as Hlen
    by (rewrite Hnum; unfold size_of; cbn [length]; lia).
  rewrite Hlen, first_clear_replicate in Hinfer.
  change (<[Z.to_nat 0 := true]> (replicate (S (length rest)) false))
    with (true :: replicate (length rest) false) in Hinfer.
  cbn [unmarked] in Hinfer. rewrite unmarked_clear in Hinfer.
  injection Hinfer as <- <- <-.
  split; [done|]. split; [|done].
  do 2 f_equal. lia.
Qed.

(** X16: the dense parser the loader builds under these default roles for
    a header of [n + 2] columns and no label map.  On a row that splits
    into a first field and [fields], the label is [stof] of the first
    field, the weight is 1, there is no name, and the features are [stof]
    of the next [n + 1] fields; a row with fewer fields is rejected with a
    [FormatException] once its label has been read, and a field that
    [stof] does not read ends the call with the exception of [stof]. *)
Theorem X16_default_dense_row (n : nat) (separator : ascii) (path : string) :
  IsEmptyOrWhiteSpace path = true →
  Z.of_nat n + 2 < 2 ^ 31 →
  ∃ p, DenseParser_ctor (Z.of_nat (S n)) 0 (-1) (-1) (true :: replicate (S n) false)
         separator path = Ok p
       ∧ ∀ (line first : string) (fields : list string),
           Split line separator = first :: fields →
           Parse (DenseParser_ParseFeatures p) (dense_base p) line
           = match stof first with
             | None => Threw stof_error
             | Some label =>
                 if bool_decide (length fields < S n)%nat then Threw FormatException
                 else match mapM stof (take (S n) fields) with
                      | Some values =>
                          Ok (mkExample (DenseVector values) label (float_of_int 1) None)
                      | None => Threw stof_error
                      end
             end.
Proof.
  intros Hblank Hsize.
  set (base := mkExampleParser (Z.of_nat (S n)) 0 (-1) (-1) separator ∅).
  set (positions := feature_positions (replicate (S n) false) 1).
  exists (mkDenseParser base positions). split.
  { unfold DenseParser_ctor, ExampleParser_ctor, load_label_map. by rewrite Hblank. }
  intros line first fields Hsplit. unfold Parse.
  cbn [dense_base separator_ labelCol_ weightCol_ nameCol_ labelMap_ base].
  rewrite Hsplit.
  rewrite (proj2 (vec_at_Ok (first :: fields) 0 first)) by done.
  cbn [mbind outcome_bind].
  rewrite (bool_decide_eq_true_2 (_ = ∅)) by done.
  rewrite !(bool_decide_eq_false_2 (0 ≤ -1)) by lia.
  assert (stof_or_throw first = match stof first with
                                | Some x => Ok x
                                | None => Threw stof_error
                                end) as -> by done.
  destruct (stof first) as [label|]; [|done]. cbn [mbind outcome_bind].
  assert (DenseParser_ParseFeatures (mkDenseParser base positions) (first :: fields)
          = if bool_decide (length fields < S n)%nat then Threw FormatException
            else match mapM stof (take (S n) fields) with
                 | Some values => Ok (DenseVector values)
                 | None => Threw stof_error
                 end) as ->.
  { unfold DenseParser_ParseFeatures, vec_back. cbn [parseIndices_ dense_base].
    subst positions. rewrite last_feature_positions_clear.
    cbn [mbind outcome_bind]. rewrite to_size_t_small by lia.
    destruct (decide (length fields < S n)%nat) as [Hshort|Hlong].
    - rewrite (bool_decide_eq_true_2 (length fields < S n)%nat) by done.
      by rewrite bool_decide_eq_false_2 by (unfold size_of; cbn [length]; lia).
    - rewrite (bool_decide_eq_false_2 (length fields < S n)%nat) by done.
      rewrite bool_decide_eq_true_2 by (unfold size_of; cbn [length]; lia).
      cbn [Check mbind outcome_bind dimension_ base].
      unfold vec_new. rewrite decide_True by lia. cbn [mbind outcome_bind].
      change 0 with (Z.of_nat 0) at 1.
      rewrite dense_loop_run.
      + rewrite drop_0. cbn [take app].
        change 1 with (Z.of_nat (length [first])).
        change (first :: fields) with ([first] ++ fields).
        rewrite read_at_clear by lia.
        by destruct (mapM stof (take (S n) fields)).
      + apply Forall_forall. intros k Hk%feature_positions_bounds.
        unfold size_of in *. rewrite length_replicate in Hk. cbn [length]. lia.
      + rewrite length_feature_positions_clear. lia.
      + rewrite length_replicate, length_feature_positions_clear. lia. }
  case_bool_decide; [done|].
  by destruct (mapM stof (take (S n) fields)).
Qed.

End DefaultDense.

(** ** The further properties on concrete inputs *)

Section PairSamples.
Import Reference.
#[local] Existing Instance pair_platform.

Lemma X1_pairs_witness :
  (IsEmptyOrWhiteSpace "pairs" = false ∧ 2 ≤ size_of (ReadAllLines "pairs"))
  ∧ ∃ p, ExampleParser_ctor 2 0 (-1) (-1) tab "pairs" = Ok p
         ∧ labelMap_ p !! "a" = Some (literal "3")
         ∧ labelMap_ p !! "b" = Some (literal "-2.0")
         ∧ labelMap_ p !! "c" = None.
Proof.
  assert (IsEmptyOrWhiteSpace "pairs" = false) as Hpath by reflexivity.
  assert (size_of (ReadAllLines "pairs") = 3) as Hthree by reflexivity.
  assert (2 ≤ size_of (ReadAllLines "pairs")) as Hsize by (rewrite Hthree; lia).
  split; [done|].
  pose proof (X1_two_column_label_map 2 0 (-1) (-1) tab "pairs" _ Hpath eq_refl Hsize)
    as HX1.
  destruct HX1 as (p & Hp & _ & Hlast & Hnone).
  { eexists _, _. split; reflexivity. }
  exists p. split; [exact Hp|]. split; [|split].
  - apply (Hlast 2%nat); [reflexivity|]. intros j kv Hj Hkv.
    destruct j as [|[|[|j]]]; try lia. discriminate Hkv.
  - apply (Hlast 1%nat); [reflexivity|]. intros j kv Hj Hkv.
    destruct j as [|[|[|j]]]; try lia; [|discriminate Hkv].
    injection Hkv as <-. discriminate.
  - apply Hnone. repeat constructor; discriminate.
Defined.

Lemma X2_label_map_witness :
  ExampleParser_ctor 2 0 (-1) (-1) tab EmptyString
  = Ok (mkExampleParser 2 0 (-1) (-1) tab ∅)
  ∧ ExampleParser_ctor 2 0 (-1) (-1) tab "single" = Threw FormatException.
Proof.
  split.
  - apply (proj1 (proj2 (X2_label_map_outcomes 2 0 (-1) (-1) tab EmptyString))).
    reflexivity.
  - apply (proj1 (proj2 (proj2 (X2_label_map_outcomes 2 0 (-1) (-1) tab "single")))).
    + reflexivity.
    + assert (size_of (ReadAllLines "single") = 1) as -> by reflexivity. lia.
Defined.

End PairSamples.

Section FurtherSamples.
Import Reference.
#[local] Existing Instance sample_platform.

Lemma one_line_dec (r : string) :
  bool_decide (newline ∉ list_ascii_of_string r) = true → one_line r.
Proof. apply bool_decide_eq_true. Qed.

Lemma X3_sparse_ctor_witness :
  (int_range 0 ∧ int_range (-1) ∧ int_range 1)
  ∧ ¬ is_Ok (SparseParser_ctor 3 0 (-1) 1 tab EmptyString)
  ∧ is_Ok (SparseParser_ctor 5 0 1 2 tab EmptyString).
Proof.
  assert (int_range 0) as H0 by (unfold int_range; lia).
  assert (int_range (-1)) as Hm by (unfold int_range; lia).
  assert (int_range 1) as H1 by (unfold int_range; lia).
  assert (int_range 2) as H2 by (unfold int_range; lia).
  split; [done|]. split.
  - intros Hok.
    apply (proj1 (X3_SparseParser_ctor_needs_all_columns 3 0 (-1) 1 tab EmptyString
                    H0 Hm H1)) in Hok.
    lia.
  - apply (proj1 (X3_SparseParser_ctor_needs_all_columns 5 0 1 2 tab EmptyString
                    H0 H1 H2)).
    split; [by eexists|]. lia.
Defined.

Lemma X4_token_count_witness :
  SparseParser_ParseFeatures sample_sparse 0 ["1"; "1.0"] = Threw FormatException
  ∧ SparseParser_ParseFeatures sample_sparse 0 ["1"; "1.0"; "n"] = Threw FormatException.
Proof.
  assert (dimension_ (sparse_base sample_sparse) = 5) as Hdim by reflexivity.
  assert (featureColumnOffset_ sample_sparse = 3) as Hoff by reflexivity.
  split.
  - assert (size_of ["1"; "1.0"] = 2) as Hsize by reflexivity.
    apply X4_sparse_token_count_rejected; rewrite ?Hdim, ?Hoff, ?Hsize; [lia..|left; lia].
  - assert (size_of ["1"; "1.0"; "n"] = 3) as Hsize by reflexivity.
    apply X4_sparse_token_count_rejected; rewrite ?Hdim, ?Hoff, ?Hsize; [lia..|left; lia].
Defined.

Lemma X5_stale_errno_witness :
  ERANGE ≠ 0
  ∧ SparseParser_ParseFeatures sample_sparse ERANGE ["1"; "1.0"; "n"; "0:1.0"]
    = Threw FormatException.
Proof.
  assert (ERANGE ≠ 0) as Herrno by (unfold ERANGE; lia).
  split; [done|].
  assert (dimension_ (sparse_base sample_sparse) = 5) as Hdim by reflexivity.
  assert (featureColumnOffset_ sample_sparse = 3) as Hoff by reflexivity.
  assert (size_of ["1"; "1.0"; "n"; "0:1.0"] = 4) as Hsize by reflexivity.
  apply X5_sparse_stale_errno; rewrite ?Hdim, ?Hoff, ?Hsize; [done|lia..].
Defined.

Lemma X6_two_rows_witness :
  two_rows = two_rows_header
             ++ file [row ["1"; "0.5"; "0.25"]; row ["0"; "1.5"; "2.25"]]
  ∧ ∃ st, State_ctor 0 (open_file (Some two_rows)) 12 (IsDense sample_dense) = (st, Ok tt)
          ∧ current (MoveNext_times 0 1 st) = Some second_example
          ∧ snd (MoveNext 0 (MoveNext_times 0 1 st)) = Ok false
          ∧ current (fst (Reset 0 (MoveNext_times 0 1 st))) = Some first_example.
Proof.
  assert (contents (open_file (Some two_rows))
          = two_rows_header ++ file [row ["1"; "0.5"; "0.25"]; row ["0"; "1.5"; "2.25"]])
    as Hcontents by reflexivity.
  split; [exact Hcontents|].
  destruct (X6_streaming_rows_in_order 0 (open_file (Some two_rows)) two_rows_header
              [row ["1"; "0.5"; "0.25"]; row ["0"; "1.5"; "2.25"]]
              [first_example; second_example] (IsDense sample_dense))
    as (st & Hctor & Hwalk).
  - reflexivity.
  - exact Hcontents.
  - repeat constructor; by apply one_line_dec.
  - repeat constructor; reflexivity.
  - discriminate.
  - exists st. split; [exact Hctor|].
    destruct (Hwalk 1%nat second_example eq_refl) as (H1 & H2 & H3).
    split; [exact H1|]. split; [exact H2 | exact H3].
Defined.

Lemma X7_exhausted_witness :
  (cache_ cursor_at_end = [] ∧ snd (MoveNext 0 cursor_at_end) = Ok false)
  ∧ snd (MoveNext 0 (MoveNext_times 0 3 cursor_at_end)) = Ok false
  ∧ current (MoveNext_times 0 3 cursor_at_end) = Some second_example.
Proof.
  assert (cache_ cursor_at_end = []) as Hc by reflexivity.
  assert (snd (MoveNext 0 cursor_at_end) = Ok false) as Hfalse by reflexivity.
  split; [done|]. exact (X7_exhaustion_is_permanent 0 cursor_at_end 2 Hc Hfalse).
Defined.

Lemma X8_rejected_row_witness :
  snd (MoveNext 0 cursor_before_bad_row) = Threw stof_error
  ∧ current (fst (MoveNext 0 cursor_before_bad_row)) = None
  ∧ snd (MoveNext 0 (fst (MoveNext 0 cursor_before_bad_row))) = Ok true
  ∧ current (fst (MoveNext 0 (fst (MoveNext 0 cursor_before_bad_row))))
    = Some first_example.
Proof.
  apply (X8_rejected_row_is_skipped 0 cursor_before_bad_row "x"
           (row ["1"; "0.5"; "0.25"]) [] stof_error first_example).
  - split; [reflexivity|]. split; reflexivity.
  - by apply one_line_dec.
  - by apply one_line_dec.
  - reflexivity.
  - reflexivity.
Defined.

Lemma X9_cached_walk_witness :
  cache_ cached_cursor !! 1%nat = Some second_example
  ∧ current (MoveNext_times 0 1 (fst (Reset 0 cached_cursor))) = Some second_example
  ∧ snd (MoveNext 0 (MoveNext_times 0 1 (fst (Reset 0 cached_cursor)))) = Ok false
  ∧ current (fst (Reset 0 (MoveNext_times 0 1 (fst (Reset 0 cached_cursor)))))
    = Some first_example.
Proof.
  assert (cache_ cached_cursor !! 1%nat = Some second_example) as Hi by reflexivity.
  split; [exact Hi|].
  destruct (X9_cached_walk 0 cached_cursor 1 second_example Hi) as (H1 & H2 & _ & H4).
  split; [exact H1|]. split; [exact H2 | exact H4].
Defined.

Lemma X10_no_newline_witness :
  (newline ∉ list_ascii_of_string (row ["label"; "f1"]))
  ∧ TextLoader_ctor 0 (open_file (Some (list_ascii_of_string (row ["label"; "f1"]))))
      default_settings = Threw ArgumentException.
Proof.
  assert (newline ∉ list_ascii_of_string (row ["label"; "f1"])) as Hnl
    by (by apply one_line_dec).
  split; [exact Hnl|].
  exact (proj2 (X10_no_complete_header_line 0 default_settings _) Hnl).
Defined.

Lemma X11_commented_header_witness :
  ∃ lay, TextLoader_layout (open_file (Some commented_file)) default_settings = Ok lay
         ∧ lay_numCols lay = 3
         ∧ drop (gpos (lay_stream lay)) (contents (lay_stream lay))
           = file [row ["1"; "0.5"; "0.25"]].
Proof.
  assert (∃ lay, TextLoader_layout (open_file (Some commented_file)) default_settings
                 = Ok lay) as [lay Hlay] by (eexists; reflexivity).
  exists lay. split; [exact Hlay|].
  destruct (X11_header_after_comments default_settings
              ["// two features"; EmptyString] (row ["label"; "f1"; "f2"])
              (file [row ["1"; "0.5"; "0.25"]]) lay) as (Hcols & _ & Hrest).
  - repeat constructor; by apply one_line_dec.
  - by apply one_line_dec.
  - apply Forall_cons. split; [by right|].
    apply Forall_cons. split; [by left | apply Forall_nil_2].
  - split; [discriminate | reflexivity].
  - exact Hlay.
  - split; [by rewrite Hcols | exact Hrest].
Defined.

Lemma X12_infer_columns_witness :
  infer_columns ["name"; "label"; "f1"; "f2"] 0 (-1) [true; false; false; false] []
  = Ok (1, [true; true; false; false], ["f1"; "f2"])
  ∧ infer_columns ["name"; "label"; "f1"; "f2"] 0 3 [true; false; false; true] []
    = Ok (3, [true; false; false; true], ["label"; "f1"]).
Proof.
  split.
  - exact (X12_infer_columns ["name"; "label"; "f1"; "f2"] (-1)
             [true; false; false; false] eq_refl).
  - exact (X12_infer_columns ["name"; "label"; "f1"; "f2"] 3
             [true; false; false; true] eq_refl).
Defined.

Lemma X13_mark_witness :
  (int_range 2 ∧ int_range 0 ∧ column_ok 2 4 ∧ column_ok 0 4)
  ∧ (∃ flags, mark_columns (mkSettings tab 2 (-1) 0 EmptyString false) 4 = Ok flags
              ∧ flags !! 2%nat = Some true ∧ flags !! 1%nat ≠ Some true)
  ∧ mark_columns (mkSettings tab 4 (-1) 0 EmptyString false) 4 = Threw domain_error.
Proof.
  assert (int_range 2) as H2 by (unfold int_range; lia).
  assert (int_range 0) as H0 by (unfold int_range; lia).
  assert (int_range 4) as H4 by (unfold int_range; lia).
  assert (column_ok 2 4) as Hl by (right; lia).
  assert (column_ok 0 4) as Hn by (right; lia).
  split; [done|]. split.
  - destruct (proj1 (X13_mark_label_and_name (mkSettings tab 2 (-1) 0 EmptyString false) 4
                       eq_refl H2 H0 ltac:(lia)) (conj Hl Hn))
      as (flags & Hmark & _ & Hflags).
    exists flags. split; [exact Hmark|]. split.
    + apply Hflags. cbn. lia.
    + intros Hone%Hflags. cbn in Hone. lia.
  - apply (proj2 (X13_mark_label_and_name (mkSettings tab 4 (-1) 0 EmptyString false) 4
                    eq_refl H4 H0 ltac:(lia))).
    intros [[?|?] _]; cbn in *; lia.
Defined.

Lemma X14_first_example_witness :
  ∃ lay loader,
    TextLoader_layout (open_file (Some two_rows)) streaming_settings = Ok lay
    ∧ TextLoader_ctor 0 (open_file (Some two_rows)) streaming_settings = Ok loader
    ∧ probe_row lay = row ["1"; "0.5"; "0.25"]
    ∧ dataSeekPosition_ (state_ loader) = 12
    ∧ current (state_ loader) = Some first_example.
Proof.
  assert (∃ lay, TextLoader_layout (open_file (Some two_rows)) streaming_settings = Ok lay
                 ∧ probe_row lay = row ["1"; "0.5"; "0.25"]
                 ∧ Z.of_nat (gpos (lay_stream lay)) = 12) as (lay & Hlay & Hrow & Hpos)
    by (eexists; split; [reflexivity | split; reflexivity]).
  assert (∃ loader, TextLoader_ctor 0 (open_file (Some two_rows)) streaming_settings
                    = Ok loader
                    ∧ parser_ (state_ loader) = IsDense sample_dense)
    as (loader & Hctor & Hparser) by (eexists; split; reflexivity).
  exists lay, loader. split; [exact Hlay|]. split; [exact Hctor|]. split; [exact Hrow|].
  assert (Z.of_nat (gpos (lay_stream lay)) < 2 ^ 64) as Hsmall by (rewrite Hpos; lia).
  destruct (X14_first_example_is_probe_row 0 (open_file (Some two_rows))
              streaming_settings lay loader Hlay Hsmall eq_refl Hctor)
    as (Hseek & _ & e & He & Hcur).
  split; [by rewrite Hseek|]. rewrite Hcur. f_equal.
  rewrite Hparser, Hrow in He.
  assert (parser_Parse 0 (IsDense sample_dense) (row ["1"; "0.5"; "0.25"])
          = Ok first_example) as Hfirst by reflexivity.
  congruence.
Defined.

Lemma X15_default_roles_witness :
  ∃ lay, TextLoader_layout (open_file (Some two_rows)) streaming_settings = Ok lay
         ∧ lay_labelCol lay = 0
         ∧ lay_isNonFeature lay = [true; false; false]
         ∧ lay_featureNames lay = ["f1"; "f2"].
Proof.
  assert (∃ lay, TextLoader_layout (open_file (Some two_rows)) streaming_settings = Ok lay
                 ∧ lay_numCols lay = 3) as (lay & Hlay & Hcols)
    by (eexists; split; reflexivity).
  exists lay. split; [exact Hlay|].
  assert (0 < lay_numCols lay) as Hpos by (rewrite Hcols; lia).
  destruct (X15_default_roles (open_file (Some two_rows)) streaming_settings lay
              eq_refl eq_refl eq_refl Hlay Hpos) as (H1 & H2 & H3).
  split; [exact H1|]. split; [by rewrite H2, Hcols | by rewrite H3].
Defined.

Lemma X16_dense_row_witness :
  IsEmptyOrWhiteSpace EmptyString = true
  ∧ ∃ p, DenseParser_ctor 2 0 (-1) (-1) [true; false; false] tab EmptyString = Ok p
         ∧ Parse (DenseParser_ParseFeatures p) (dense_base p) (row ["1"; "0.5"; "0.25"])
           = Ok first_example
         ∧ Parse (DenseParser_ParseFeatures p) (dense_base p) (row ["1"; "0.5"])
           = Threw FormatException.
Proof.
  assert (IsEmptyOrWhiteSpace EmptyString = true) as Hblank by reflexivity.
  split; [exact Hblank|].
  assert (Z.of_nat 1 + 2 < 2 ^ 31) as Hsize by lia.
  destruct (X16_default_dense_row 1 tab EmptyString Hblank Hsize) as (p & Hp & Hrow).
  exists p. split; [exact Hp|]. split.
  - exact (Hrow (row ["1"; "0.5"; "0.25"]) "1" ["0.5"; "0.25"] eq_refl).
  - exact (Hrow (row ["1"; "0.5"]) "1" ["0.5"] eq_refl).
Defined.

End FurtherSamples.
